(** * The ironic conductor manager and the iRMC driver_info parser

    A shallow embedding of
      - [ironic/conductor/manager.py]: the RPC handlers [update_node],
        [change_node_power_state], [vendor_passthru], [do_node_deploy],
        [destroy_node], [set_console_mode], the periodic task
        [_check_deploy_timeouts] and the module functions
        [power_state_error_handler], [provisioning_error_handler],
        [handle_sync_power_state_max_retries_exceeded], [do_sync_power_state];
      - [ironic/drivers/modules/irmc/common.py]: [parse_driver_info].

    Handlers are computations in a state-and-exception monad over a [World]
    holding the node table, the worker pool and a chronological trace of the
    effects the handler performed. *)

From Stdlib Require Import ZArith String Ascii List Bool Lia.
From stdpp Require Import base option gmap strings list.

Local Open Scope string_scope.
Local Open Scope Z_scope.

(** ** Values of [ironic.common.states] *)

Module states.

(** Modelled from the spec: the power state constants of
    [ironic/common/states.py] (section 3: ON, OFF, REBOOT, ERROR and NONE).
    [NOSTATE] is Python's [None]. *)
Inductive power_state :=
| NOSTATE | POWER_ON | POWER_OFF | REBOOT | ERROR.

(** [a == b] *)
Definition power_state_eqb (a b : power_state) : bool :=
  match a, b with
  | NOSTATE, NOSTATE | POWER_ON, POWER_ON | POWER_OFF, POWER_OFF
  | REBOOT, REBOOT | ERROR, ERROR => true
  | _, _ => false
  end.

(** [str()] of a power state, as it appears in formatted messages. *)
Definition power_state_str (p : power_state) : string :=
  match p with
  | NOSTATE => "None"
  | POWER_ON => "power on"
  | POWER_OFF => "power off"
  | REBOOT => "rebooting"
  | ERROR => "error"
  end.

(** Modelled from the spec: the provision state constants of
    [ironic/common/states.py] (section 4.F). *)
Inductive provision_state :=
| AVAILABLE | ACTIVE | DEPLOYING | DEPLOYWAIT | DEPLOYFAIL | DEPLOYDONE
| DELETING | DELETED | PROV_ERROR.

Definition provision_state_str (p : provision_state) : string :=
  match p with
  | AVAILABLE => "available"
  | ACTIVE => "active"
  | DEPLOYING => "deploying"
  | DEPLOYWAIT => "wait call-back"
  | DEPLOYFAIL => "deploy failed"
  | DEPLOYDONE => "deploy complete"
  | DELETING => "deleting"
  | DELETED => "deleted"
  | PROV_ERROR => "error"
  end.

Definition provision_state_eqb (a b : provision_state) : bool :=
  match a, b with
  | AVAILABLE, AVAILABLE | ACTIVE, ACTIVE | DEPLOYING, DEPLOYING
  | DEPLOYWAIT, DEPLOYWAIT | DEPLOYFAIL, DEPLOYFAIL
  | DEPLOYDONE, DEPLOYDONE | DELETING, DELETING | DELETED, DELETED
  | PROV_ERROR, PROV_ERROR => true
  | _, _ => false
  end.

End states.
Export states.

(** ** Exceptions *)

(** Modelled from the spec: the error kinds of section 7
    ([ironic/common/exception.py]), with Python's [AttributeError] and one
    constructor for every other exception a driver may raise. *)
Inductive exn :=
| NodeLocked
| NodeNotFound
| DriverNotFound
| NodeAssociated
| NodeInWrongPowerState (msg : string)
| NodeInMaintenance
| InvalidParameterValue (msg : string)
| MissingParameterValue (msg : string)
| UnsupportedDriverExtension (extension : string)
| NoFreeConductorWorker
| InvalidState
| InstanceDeployFailure (msg : string)
| PowerStateFailure (msg : string)
| IronicException (msg : string)
| AttributeError
| OtherException (msg : string).

(** [except (exception.InvalidParameterValue,
            exception.MissingParameterValue)] *)
Definition is_parameter_error (e : exn) : bool :=
  match e with
  | InvalidParameterValue _ | MissingParameterValue _ => true
  | _ => false
  end.

Definition exn_str (e : exn) : string :=
  match e with
  | NodeInWrongPowerState m | InvalidParameterValue m
  | MissingParameterValue m | InstanceDeployFailure m
  | PowerStateFailure m | IronicException m | OtherException m => m
  | NodeLocked => "NodeLocked"
  | NodeNotFound => "NodeNotFound"
  | DriverNotFound => "DriverNotFound"
  | NodeAssociated => "NodeAssociated"
  | NodeInMaintenance => "NodeInMaintenance"
  | UnsupportedDriverExtension x => x
  | NoFreeConductorWorker => "NoFreeConductorWorker"
  | InvalidState => "InvalidState"
  | AttributeError => "AttributeError"
  end.

(** ** JSON-safe Python values stored in [driver_info]

    [PInt] stands for Python's [int]; floats, [long]s and containers are
    left out. *)

Inductive pyval :=
| PNone
| PBool (b : bool)
| PInt (z : Z)
| PStr (s : string).

(** Python truthiness: [not v] is the negation of this. *)
Definition truthy (v : pyval) : bool :=
  match v with
  | PNone => false
  | PBool b => b
  | PInt z => negb (z =? 0)
  | PStr s => negb (String.eqb s "")
  end.

(** ** The node object *)

(** Modelled from the spec: the Node of section 3 ([ironic/objects/node.py]),
    with the attributes the handlers read or write. *)
Record Node := mkNode {
  uuid : string;
  driver : string;
  power_state : states.power_state;
  target_power_state : states.power_state;
  provision_state : states.provision_state;
  target_provision_state : option states.provision_state;
  maintenance : bool;
  maintenance_reason : option string;
  reservation : option string;
  instance_uuid : option string;
  instance_info : gmap string string;
  driver_info : gmap string pyval;
  console_enabled : bool;
  last_error : option string
}.

(** The names of the fields a change delta can mention. *)
Inductive Field :=
| F_driver | F_power_state | F_target_power_state | F_provision_state
| F_target_provision_state | F_maintenance | F_maintenance_reason
| F_instance_uuid | F_instance_info | F_driver_info | F_console_enabled
| F_last_error.

Definition Field_eqb (a b : Field) : bool :=
  match a, b with
  | F_driver, F_driver | F_power_state, F_power_state
  | F_target_power_state, F_target_power_state
  | F_provision_state, F_provision_state
  | F_target_provision_state, F_target_provision_state
  | F_maintenance, F_maintenance
  | F_maintenance_reason, F_maintenance_reason
  | F_instance_uuid, F_instance_uuid | F_instance_info, F_instance_info
  | F_driver_info, F_driver_info | F_console_enabled, F_console_enabled
  | F_last_error, F_last_error => true
  | _, _ => false
  end.

(** [name in delta] *)
Definition in_delta (f : Field) (delta : list Field) : bool :=
  existsb (Field_eqb f) delta.

(** Modelled from the spec: a versioned object of [ironic/objects/base.py],
    the attribute values together with the set of attributes assigned
    since the last [save] ([obj_what_changed]). *)
Record NodeObj := mkObj {
  attrs : Node;
  changed : list Field
}.

Definition obj_what_changed (o : NodeObj) : list Field := changed o.

Section Setters.
Variable o : NodeObj.
Let n := attrs o.

Definition set_target_power_state (v : states.power_state) : NodeObj :=
  mkObj (mkNode (uuid n) (driver n) (power_state n) v (provision_state n)
           (target_provision_state n) (maintenance n) (maintenance_reason n)
           (reservation n) (instance_uuid n) (instance_info n)
           (driver_info n) (console_enabled n) (last_error n))
        (F_target_power_state :: changed o).

Definition set_power_state (v : states.power_state) : NodeObj :=
  mkObj (mkNode (uuid n) (driver n) v (target_power_state n)
           (provision_state n) (target_provision_state n) (maintenance n)
           (maintenance_reason n) (reservation n) (instance_uuid n)
           (instance_info n) (driver_info n) (console_enabled n)
           (last_error n))
        (F_power_state :: changed o).

Definition set_provision_state (v : states.provision_state) : NodeObj :=
  mkObj (mkNode (uuid n) (driver n) (power_state n) (target_power_state n)
           v (target_provision_state n) (maintenance n)
           (maintenance_reason n) (reservation n) (instance_uuid n)
           (instance_info n) (driver_info n) (console_enabled n)
           (last_error n))
        (F_provision_state :: changed o).

Definition set_target_provision_state
    (v : option states.provision_state) : NodeObj :=
  mkObj (mkNode (uuid n) (driver n) (power_state n) (target_power_state n)
           (provision_state n) v (maintenance n) (maintenance_reason n)
           (reservation n) (instance_uuid n) (instance_info n)
           (driver_info n) (console_enabled n) (last_error n))
        (F_target_provision_state :: changed o).

Definition set_maintenance (v : bool) : NodeObj :=
  mkObj (mkNode (uuid n) (driver n) (power_state n) (target_power_state n)
           (provision_state n) (target_provision_state n) v
           (maintenance_reason n) (reservation n) (instance_uuid n)
           (instance_info n) (driver_info n) (console_enabled n)
           (last_error n))
        (F_maintenance :: changed o).

Definition set_maintenance_reason (v : option string) : NodeObj :=
  mkObj (mkNode (uuid n) (driver n) (power_state n) (target_power_state n)
           (provision_state n) (target_provision_state n) (maintenance n)
             v (reservation n) (instance_uuid n) (instance_info n)
           (driver_info n) (console_enabled n) (last_error n))
        (F_maintenance_reason :: changed o).

Definition set_instance_info (v : gmap string string) : NodeObj :=
  mkObj (mkNode (uuid n) (driver n) (power_state n) (target_power_state n)
           (provision_state n) (target_provision_state n) (maintenance n)
           (maintenance_reason n) (reservation n) (instance_uuid n) v
           (driver_info n) (console_enabled n) (last_error n))
        (F_instance_info :: changed o).

Definition set_last_error (v : option string) : NodeObj :=
  mkObj (mkNode (uuid n) (driver n) (power_state n) (target_power_state n)
           (provision_state n) (target_provision_state n) (maintenance n)
           (maintenance_reason n) (reservation n) (instance_uuid n)
           (instance_info n) (driver_info n) (console_enabled n) v)
        (F_last_error :: changed o).

Definition obj_reset_changes : NodeObj := mkObj n [].
End Setters.

(** The row lock column is written by the database layer only. *)
Definition with_reservation (r : option string) (n : Node) : Node :=
  mkNode (uuid n) (driver n) (power_state n) (target_power_state n)
    (provision_state n) (target_provision_state n) (maintenance n)
    (maintenance_reason n) r (instance_uuid n) (instance_info n)
    (driver_info n) (console_enabled n) (last_error n).

(** Modelled from the spec: [dbapi.update_node(id, updates)] of the Store
    (section 4.C), the row after writing the changed attributes of [o]
    over it. *)
Definition apply_changes (row : Node) (o : NodeObj) : Node :=
  let n := attrs o in
  let pick {A} (f : Field) (get : Node -> A) : A :=
    if in_delta f (changed o) then get n else get row in
  mkNode (uuid row)
    (pick F_driver driver)
    (pick F_power_state power_state)
    (pick F_target_power_state target_power_state)
    (pick F_provision_state provision_state)
    (pick F_target_provision_state target_provision_state)
    (pick F_maintenance maintenance)
    (pick F_maintenance_reason maintenance_reason)
    (reservation row)
    (pick F_instance_uuid instance_uuid)
    (pick F_instance_info instance_info)
    (pick F_driver_info driver_info)
    (pick F_console_enabled console_enabled)
    (pick F_last_error last_error).

(** ** Jobs handed to the worker pool, and the effects a handler performs *)

Inductive Job :=
| J_node_power_action (node_uuid : string) (new_state : states.power_state)
| J_vendor_func (node_uuid method : string) (info : gmap string string)
| J_legacy_vendor_passthru (node_uuid method : string)
    (info : gmap string string)
| J_set_console_mode (node_uuid : string) (enabled : bool)
| J_do_node_deploy (node_uuid : string)
| J_cleanup_after_timeout (node_uuid : string).

Inductive DriverCall :=
| power_validate_call
| power_get_power_state_call
| power_action_call (st : states.power_state)
| deploy_validate_call
| console_validate_call
| console_start_call
| console_stop_call
| vendor_validate_call (method : string)
| vendor_func_call (method : string).

Inductive Effect :=
| E_reserve (node_uuid : string)
| E_release (node_uuid : string)
| E_driver (c : DriverCall) (node_uuid : string)
| E_save (node_uuid : string) (row : Node)
| E_destroy (node_uuid : string)
| E_process_event (node_uuid : string) (event : string)
| E_spawn (j : Job)
| E_get_nodeinfo_list.

(** ** The world a handler runs in *)

Record World := mkWorld {
  db : gmap string Node;        (* the nodes table, keyed by uuid *)
  running : list Job;           (* greenthreads alive in the worker pool *)
  trace : list Effect           (* effects so far, oldest first *)
}.

Definition log (e : Effect) (w : World) : World :=
  mkWorld (db w) (running w) (trace w ++ [e]).

Definition M (A : Type) : Type := World -> World * (exn + A).

Definition ret {A} (a : A) : M A := fun w => (w, inr a).

Definition raise {A} (e : exn) : M A := fun w => (w, inl e).

Definition bind {A B} (m : M A) (k : A -> M B) : M B :=
  fun w => match m w with
           | (w', inl e) => (w', inl e)
           | (w', inr a) => k a w'
           end.

(** [try: m except <handles> as e: h e] *)
Definition try_except {A} (m : M A) (handles : exn -> bool)
    (h : exn -> M A) : M A :=
  fun w => match m w with
           | (w', inl e) => if handles e then h e w' else (w', inl e)
           | r => r
           end.

Definition tell (e : Effect) : M unit := fun w => (log e w, inr tt).

Declare Scope conductor_scope.
Delimit Scope conductor_scope with conductor.
Notation "'do' x <- m ; k" := (bind m (fun x => k))
  (at level 10, x name, m at level 100, k at level 200, only parsing)
  : conductor_scope.
Notation "'exec' m ; k" := (bind m (fun _ => k))
  (at level 10, m at level 100, k at level 200, only parsing)
  : conductor_scope.
Local Open Scope conductor_scope.

(** ** Drivers: the capability surface the conductor calls

    A driver operation is an oracle on the node it is asked about: [None]
    (or [inr]) when it returns, [Some e] (or [inl e]) when it raises [e]. *)

Record Route := mkRoute {
  func : Node -> gmap string string -> exn + option string;
  http_methods : list string;
  async : bool
}.

Record VendorIface := mkVendor {
  (* hasattr(vendor_iface, 'vendor_passthru') *)
  has_legacy_vendor_passthru : bool;
  vendor_validate :
    Node -> string -> option string -> gmap string string -> option exn;
  vendor_routes : gmap string Route
}.

Record ConsoleIface := mkConsole {
  console_validate : Node -> option exn
}.

Record Driver := mkDriver {
  power_validate : Node -> option exn;
  power_get_power_state : Node -> exn + states.power_state;
  deploy_validate : Node -> option exn;
  console : option ConsoleIface;
  vendor : option VendorIface
}.

(** [CONF.conductor] *)
Record Conf := mkConf {
  deploy_callback_timeout : Z;
  force_power_state_during_sync : bool;
  power_state_sync_max_retries : Z;
  periodic_max_workers : Z;
  workers_pool_size : nat
}.

Record Env := mkEnv {
  host : string;
  CONF : Conf;
  (* the drivers this conductor loaded, by name *)
  driver_factory : string -> option Driver;
  (* the provisioning state machine: (state, event) to (state, target) *)
  fsm : states.provision_state -> string ->
        option (states.provision_state * option states.provision_state);
  (* hash ring membership of this host for (node uuid, driver) *)
  mapped_to_this_conductor : string -> string -> bool;
  (* the rows [dbapi.get_nodeinfo_list] answers with for the deploy-timeout
     filters, oldest [provision_updated_at] first: (uuid, driver) *)
  timed_out_nodeinfo : gmap string Node -> list (string * string);
  (* [utils.node_power_action(task, new_state)], run synchronously on the
     task's node *)
  node_power_action : NodeObj -> states.power_state -> M NodeObj
}.

(** [driver.<iface>.<op>(task)] for an operation that returns nothing. *)
Definition call_driver (c : DriverCall) (n : Node) (r : option exn)
    : M unit :=
  exec tell (E_driver c (uuid n));
  match r with
  | Some e => raise e
  | None => ret tt
  end.

(** ** The worker pool *)

(** [self._worker_pool.free()] *)
Definition free (env : Env) (w : World) : nat :=
  (workers_pool_size (CONF env) - length (running w))%nat.

(** [ConductorManager._spawn_worker] *)
Definition _spawn_worker (env : Env) (j : Job) : M unit :=
  fun w =>
    match free env w with
    | O => (w, inl NoFreeConductorWorker)
    | S _ => (mkWorld (db w) (running w ++ [j]) (trace w ++ [E_spawn j]),
              inr tt)
    end.

(** ** The node object's persistence *)

(** Modelled from the spec: [objects.Node.save] ([ironic/objects/node.py])
    over the Store of section 4.C. It writes the changed attributes to the
    row and resets the change set, and fails with [NodeNotFound] when the
    row is gone. *)
Definition save (o : NodeObj) : M NodeObj :=
  fun w =>
    match db w !! uuid (attrs o) with
    | None => (w, inl NodeNotFound)
    | Some row =>
        let row' := apply_changes row o in
        (mkWorld (<[uuid (attrs o) := row']> (db w)) (running w)
           (trace w ++ [E_save (uuid (attrs o)) row']),
         inr (obj_reset_changes o))
    end.

(** Modelled from the spec: [objects.Node.destroy], the Store's
    [destroy_node] (section 4.C). *)
Definition destroy (o : NodeObj) : M unit :=
  fun w =>
    match db w !! uuid (attrs o) with
    | None => (w, inl NodeNotFound)
    | Some _ =>
        (mkWorld (delete (uuid (attrs o)) (db w)) (running w)
           (trace w ++ [E_destroy (uuid (attrs o))]),
         inr tt)
    end.

(** Modelled from the spec: [dbapi.get_node] of section 4.C. *)
Definition get_node (node_id : string) : M Node :=
  fun w =>
    match db w !! node_id with
    | None => (w, inl NodeNotFound)
    | Some row => (w, inr row)
    end.

(** ** Spawn-error hooks (manager.py, module level) *)

(** A registered hook is the handler together with the extra arguments it
    was registered with; the node argument is the task's own node object,
    read when the hook runs. *)
Inductive ErrorHook :=
| H_power_state_error_handler (power_state : states.power_state)
| H_provisioning_error_handler (provision_state : states.provision_state)
    (target_provision_state : option states.provision_state).

Definition no_free_workers_msg : string :=
  "No free conductor workers available".

Definition power_state_error_handler (e : exn) (node : NodeObj)
    (power_state : states.power_state) : M NodeObj :=
  match e with
  | NoFreeConductorWorker =>
      let node := set_power_state node power_state in
      let node := set_target_power_state node NOSTATE in
      let node := set_last_error node (Some no_free_workers_msg) in
      save node
  | _ => ret node
  end.

Definition provisioning_error_handler (e : exn) (node : NodeObj)
    (provision_state : states.provision_state)
    (target_provision_state : option states.provision_state) : M NodeObj :=
  match e with
  | NoFreeConductorWorker =>
      let node := set_provision_state node provision_state in
      let node := set_target_provision_state node target_provision_state in
      let node := set_last_error node (Some no_free_workers_msg) in
      save node
  | _ => ret node
  end.

Definition run_hook (h : ErrorHook) (e : exn) (node : NodeObj) : M NodeObj :=
  match h with
  | H_power_state_error_handler ps => power_state_error_handler e node ps
  | H_provisioning_error_handler ps tps =>
      provisioning_error_handler e node ps tps
  end.

(** ** The task manager *)

(** Modelled from the spec: the [TaskManager] of
    [ironic/conductor/task_manager.py] (section 4.D): the node, the driver,
    the kind of lock, the deferred job and the spawn-error hook. *)
Record Task := mkTask {
  task_node : NodeObj;
  task_driver : Driver;
  task_shared : bool;
  spawn_method : option Job;
  on_error_method : option ErrorHook
}.

(** [task.node = o] *)
Definition with_node (t : Task) (o : NodeObj) : Task :=
  mkTask o (task_driver t) (task_shared t) (spawn_method t)
    (on_error_method t).

(** Modelled from the spec: [task.set_spawn_error_hook(hook, node, ...)]
    (section 4.D). *)
Definition set_spawn_error_hook (t : Task) (h : ErrorHook) : Task :=
  mkTask (task_node t) (task_driver t) (task_shared t) (spawn_method t)
    (Some h).

(** Modelled from the spec: [task.spawn_after(spawner, fn, ...)] records
    the deferred job (section 4.D). *)
Definition spawn_after (t : Task) (j : Job) : Task :=
  mkTask (task_node t) (task_driver t) (task_shared t) (Some j)
    (on_error_method t).

(** Modelled from the spec: [task_manager.acquire] (section 4.D). An
    exclusive task reserves the node row for this host ([reserve_node],
    failing with [NodeLocked] when the row is reserved) and then loads the
    driver; a shared task takes no reservation. *)
Definition acquire (env : Env) (node_id : string) (shared : bool)
    (driver_name : option string) : M Task :=
  fun w =>
    match db w !! node_id with
    | None => (w, inl NodeNotFound)
    | Some row =>
        if shared then
          match driver_factory env (default (driver row) driver_name) with
          | None => (w, inl DriverNotFound)
          | Some d => (w, inr (mkTask (mkObj row []) d true None None))
          end
        else
          match reservation row with
          | Some _ => (w, inl NodeLocked)
          | None =>
              let row' := with_reservation (Some (host env)) row in
              match driver_factory env (default (driver row) driver_name) with
              | None =>
                  (* the reservation is given back before the failure
                     leaves the constructor *)
                  (mkWorld (<[node_id := with_reservation None row']> (db w))
                     (running w)
                     (trace w ++ [E_reserve node_id; E_release node_id]),
                   inl DriverNotFound)
              | Some d =>
                  (mkWorld (<[node_id := row']> (db w)) (running w)
                     (trace w ++ [E_reserve node_id]),
                   inr (mkTask (mkObj row' []) d false None None))
              end
          end
    end.

(** Modelled from the spec: [task.release_resources()] (section 4.D). It
    clears the row's reservation when this host holds it; a second call,
    or a call on a shared task, does nothing. *)
Definition release_resources (env : Env) (t : Task) : M unit :=
  fun w =>
    let node_id := uuid (attrs (task_node t)) in
    if task_shared t then (w, inr tt)
    else
      match db w !! node_id with
      | Some row =>
          if bool_decide (reservation row = Some (host env)) then
            (mkWorld (<[node_id := with_reservation None row]> (db w))
               (running w) (trace w ++ [E_release node_id]),
             inr tt)
          else (w, inr tt)
      | None => (w, inr tt)
      end.

(** Modelled from the spec: the scope
    [with task_manager.acquire(...) as task: body] (section 4.D). The body
    returns the task as it left it, with the value the handler returns.
    Leaving the scope normally submits the deferred job, if any: on success
    the job keeps the reservation, on a spawn failure the registered hook
    runs before the reservation is released and the failure is re-raised.
    Every other exit releases the reservation. *)
Definition with_task {A} (env : Env) (node_id : string) (shared : bool)
    (driver_name : option string) (body : Task -> M (Task * A)) : M A :=
  fun w =>
    match acquire env node_id shared driver_name w with
    | (w1, inl e) => (w1, inl e)
    | (w1, inr t) =>
        match body t w1 with
        | (w2, inl e) => (fst (release_resources env t w2), inl e)
        | (w2, inr (t', a)) =>
            match spawn_method t' with
            | None => (fst (release_resources env t' w2), inr a)
            | Some j =>
                match _spawn_worker env j w2 with
                | (w3, inr _) => (w3, inr a)
                | (w3, inl e) =>
                    let w4 :=
                      match on_error_method t' with
                      | Some h => fst (run_hook h e (task_node t') w3)
                      | None => w3
                      end in
                    (fst (release_resources env t' w4), inl e)
                end
            end
        end
    end.

(** Modelled from the spec: [task.process_event(event,
    callback=self._spawn_worker, call_args=(job...), err_handler=...)]
    (sections 4.D and 4.F). It advances the state machine, records the rollback hook and the deferred
    job, clears [last_error] when work is about to start, and saves. An
    event the machine does not accept fails with [InvalidState]. *)
Definition process_event (env : Env) (t : Task) (event : string)
    (callback : option Job)
    (err_handler : option (states.provision_state ->
                           option states.provision_state -> ErrorHook))
    : M Task :=
  let node := task_node t in
  exec tell (E_process_event (uuid (attrs node)) event);
  match fsm env (provision_state (attrs node)) event with
  | None => raise InvalidState
  | Some (st, tgt) =>
      let t :=
        match err_handler, callback with
        | Some h, Some _ =>
            set_spawn_error_hook t
              (h (provision_state (attrs node))
                 (target_provision_state (attrs node)))
        | _, _ => t
        end in
      let node := set_provision_state node st in
      let node := set_target_provision_state node tgt in
      let node := match callback with
                  | Some _ => set_last_error node None
                  | None => node
                  end in
      let t := match callback with
               | Some j => spawn_after t j
               | None => t
               end in
      do node <- save node;
      ret (with_node t node)
  end.

(** ** String helpers: [str.upper], [str.lower], [x in list] *)

Definition upper_ascii (c : ascii) : ascii :=
  let n := nat_of_ascii c in
  if ((97 <=? n) && (n <=? 122))%nat then ascii_of_nat (n - 32) else c.

Definition lower_ascii (c : ascii) : ascii :=
  let n := nat_of_ascii c in
  if ((65 <=? n) && (n <=? 90))%nat then ascii_of_nat (n + 32) else c.

Fixpoint upper (s : string) : string :=
  match s with
  | EmptyString => EmptyString
  | String c r => String (upper_ascii c) (upper r)
  end.

Fixpoint lower (s : string) : string :=
  match s with
  | EmptyString => EmptyString
  | String c r => String (lower_ascii c) (lower r)
  end.

Definition str_in (x : string) (l : list string) : bool :=
  existsb (String.eqb x) l.

(** ** RPC handlers of [ConductorManager] *)

Definition update_node_msg : string :=
  "Invalid method call: update_node can not change node state.".

Definition update_node (env : Env) (node_obj : NodeObj) : M NodeObj :=
  let node_id := uuid (attrs node_obj) in
  let delta := obj_what_changed node_obj in
  if in_delta F_power_state delta then
    raise (IronicException update_node_msg)
  else
    let node_obj :=
      if in_delta F_maintenance delta && negb (maintenance (attrs node_obj))
      then set_maintenance_reason node_obj None
      else node_obj in
    let driver_name :=
      if in_delta F_driver delta then Some (driver (attrs node_obj))
      else None in
    with_task env node_id false driver_name (fun task =>
      do node_obj <- save node_obj;
      ret (task, node_obj)).

Definition change_node_power_state (env : Env) (node_id : string)
    (new_state : states.power_state) : M unit :=
  with_task env node_id false None (fun task =>
    let node := task_node task in
    exec call_driver power_validate_call (attrs node)
           (power_validate (task_driver task) (attrs node));
    let node :=
      if power_state_eqb new_state REBOOT
      then set_target_power_state node POWER_ON
      else set_target_power_state node new_state in
    let node := set_last_error node None in
    do node <- save node;
    let task := with_node task node in
    let task :=
      set_spawn_error_hook task
        (H_power_state_error_handler (power_state (attrs node))) in
    let task :=
      spawn_after task (J_node_power_action (uuid (attrs node)) new_state) in
    ret (task, tt)).

Definition vendor_passthru (env : Env) (node_id driver_method
    http_method : string) (info : gmap string string)
    : M (option string * bool) :=
  with_task env node_id false None (fun task =>
    let n := attrs (task_node task) in
    match vendor (task_driver task) with
    | None => raise (UnsupportedDriverExtension "vendor interface")
    | Some vendor_iface =>
        if has_legacy_vendor_passthru vendor_iface then
          exec call_driver (vendor_validate_call driver_method) n
                 (vendor_validate vendor_iface n driver_method None info);
          let task :=
            spawn_after task
              (J_legacy_vendor_passthru (uuid n) driver_method info) in
          ret (task, (None, true))
        else
          match vendor_routes vendor_iface !! driver_method with
          | None =>
              raise (InvalidParameterValue
                       ("No handler for method " +:+ driver_method))
          | Some vendor_opts =>
              let http_method := upper http_method in
              if negb (str_in http_method (http_methods vendor_opts)) then
                raise (InvalidParameterValue
                         ("The method " +:+ driver_method +:+
                          " does not support HTTP " +:+ http_method))
              else
                exec call_driver (vendor_validate_call driver_method) n
                       (vendor_validate vendor_iface n driver_method
                          (Some http_method) info);
                let info := <["http_method" := http_method]> info in
                let is_async := async vendor_opts in
                if is_async then
                  let task :=
                    spawn_after task
                      (J_vendor_func (uuid n) driver_method info) in
                  ret (task, (None, is_async))
                else
                  exec tell (E_driver (vendor_func_call driver_method)
                               (uuid n));
                  match func vendor_opts n info with
                  | inl e => raise e
                  | inr r => ret (task, (r, is_async))
                  end
          end
    end).

Definition is_InvalidState (e : exn) : bool :=
  match e with InvalidState => true | _ => false end.

Definition do_node_deploy (env : Env) (node_id : string) (rebuild : bool)
    : M unit :=
  with_task env node_id false None (fun task =>
    let node := task_node task in
    if maintenance (attrs node) then raise NodeInMaintenance
    else
      exec try_except
             (exec call_driver power_validate_call (attrs node)
                     (power_validate (task_driver task) (attrs node));
              call_driver deploy_validate_call (attrs node)
                (deploy_validate (task_driver task) (attrs node)))
             is_parameter_error
             (fun e => raise (InstanceDeployFailure
                ("RPC do_node_deploy failed to validate deploy or " +:+
                 "power info. Error: " +:+ exn_str e)));
      do r <- (if rebuild then
                 let instance_info := instance_info (attrs node) in
                 let instance_info := delete "kernel" instance_info in
                 let instance_info := delete "ramdisk" instance_info in
                 let node := set_instance_info node instance_info in
                 do node <- save node;
                 ret ("rebuild", node)
               else ret ("deploy", node));
      let event := fst r in
      let node := snd r in
      do task <- try_except
                   (process_event env (with_node task node) event
                      (Some (J_do_node_deploy (uuid (attrs node))))
                      (Some H_provisioning_error_handler))
                   is_InvalidState
                   (fun _ => raise (InstanceDeployFailure
                      ("Request received to " +:+ event +:+ " " +:+
                       uuid (attrs node) +:+
                       ", but this is not possible in the current state " +:+
                       "of '" +:+
                       provision_state_str (provision_state (attrs node)) +:+
                       "'. ")));
      ret (task, tt)).

Definition destroy_node (env : Env) (node_id : string) : M unit :=
  with_task env node_id false None (fun task =>
    let node := task_node task in
    match instance_uuid (attrs node) with
    | Some _ => raise NodeAssociated
    | None =>
        if negb (power_state_eqb (power_state (attrs node)) POWER_OFF
                 || power_state_eqb (power_state (attrs node)) NOSTATE)
        then raise (NodeInWrongPowerState
                      ("Node " +:+ uuid (attrs node) +:+
                       " can't be deleted because it's not powered off"))
        else
          exec destroy node;
          ret (task, tt)
    end).

Definition set_console_mode (env : Env) (node_id : string) (enabled : bool)
    : M unit :=
  with_task env node_id false None (fun task =>
    let node := task_node task in
    match console (task_driver task) with
    | None => raise (UnsupportedDriverExtension "console")
    | Some console_iface =>
        exec call_driver console_validate_call (attrs node)
               (console_validate console_iface (attrs node));
        if Bool.eqb enabled (console_enabled (attrs node)) then
          exec release_resources env task;
          ret (task, tt)
        else
          let node := set_last_error node None in
          do node <- save node;
          let task :=
            spawn_after (with_node task node)
              (J_set_console_mode (uuid (attrs node)) enabled) in
          ret (task, tt)
    end).

(** ** Periodic task [_check_deploy_timeouts] *)

(** One iteration's [with task_manager.acquire(...)] block: it answers
    [false] when it is left through [continue] and [true] when it runs to
    its end, after the ['fail'] event. *)
Definition fail_timed_out_deploy (env : Env) (node_uuid : string) : M bool :=
  with_task env node_uuid false None (fun task =>
    if maintenance (attrs (task_node task))
       || negb (provision_state_eqb
                  (provision_state (attrs (task_node task))) DEPLOYWAIT)
    then ret (task, false)
    else
      do task <- process_event env task "fail"
                   (Some (J_cleanup_after_timeout
                            (uuid (attrs (task_node task)))))
                   (Some H_provisioning_error_handler);
      ret (task, true)).

(** The loop over [node_list], with the running [workers_count]. *)
Fixpoint check_deploy_timeouts_loop (env : Env)
    (node_list : list (string * string)) (workers_count : Z) : M unit :=
  match node_list with
  | [] => ret tt
  | (node_uuid, driver) :: rest =>
      if negb (mapped_to_this_conductor env node_uuid driver) then
        check_deploy_timeouts_loop env rest workers_count
      else
        fun w =>
          match fail_timed_out_deploy env node_uuid w with
          | (w', inl NoFreeConductorWorker) => (w', inr tt)
          | (w', inl NodeLocked) | (w', inl NodeNotFound) =>
              check_deploy_timeouts_loop env rest workers_count w'
          | (w', inl e) => (w', inl e)
          | (w', inr false) =>
              check_deploy_timeouts_loop env rest workers_count w'
          | (w', inr true) =>
              let workers_count := workers_count + 1 in
              if workers_count =? periodic_max_workers (CONF env)
              then (w', inr tt)
              else check_deploy_timeouts_loop env rest workers_count w'
          end
  end.

Definition _check_deploy_timeouts (env : Env) : M unit :=
  let callback_timeout := deploy_callback_timeout (CONF env) in
  if callback_timeout =? 0 then ret tt
  else
    fun w =>
      let node_list := timed_out_nodeinfo env (db w) in
      check_deploy_timeouts_loop env node_list 0 (log E_get_nodeinfo_list w).

(** ** Power state synchronisation (manager.py, module level) *)

Definition max_retries_msg (node : Node)
    (actual_power_state : states.power_state) : string :=
  "During sync_power_state, max retries exceeded for node " +:+ uuid node
  +:+ ", node state " +:+ power_state_str actual_power_state
  +:+ " does not match expected state '"
  +:+ power_state_str (power_state node)
  +:+ "'. Updating DB state to '" +:+ power_state_str actual_power_state
  +:+ "' Switching node to maintenance mode.".

Definition handle_sync_power_state_max_retries_exceeded (node : NodeObj)
    (actual_power_state : states.power_state) : M NodeObj :=
  let msg := max_retries_msg (attrs node) actual_power_state in
  let node := set_power_state node actual_power_state in
  let node := set_last_error node (Some msg) in
  let node := set_maintenance node true in
  let node := set_maintenance_reason node (Some msg) in
  save node.

(** The [except Exception] arm of the reading: [power_state] is the local
    variable as the failed [try] block left it. *)
Definition sync_reading_failed (env : Env) (task : Task) (count : Z)
    (power_state : states.power_state) : M (Task * Z) :=
  if count >? power_state_sync_max_retries (CONF env) then
    do node <- handle_sync_power_state_max_retries_exceeded
                 (task_node task) power_state;
    ret (with_node task node, count)
  else ret (task, count).

Definition do_sync_power_state (env : Env) (task : Task) (count : Z)
    : M (Task * Z) :=
  let node := task_node task in
  let count := count + 1 in
  do can_sync <-
    (if power_state_eqb (power_state (attrs node)) NOSTATE then
       try_except
         (exec call_driver power_validate_call (attrs node)
                 (power_validate (task_driver task) (attrs node));
          ret true)
         is_parameter_error
         (fun _ => ret false)
     else ret true);
  if negb can_sync then ret (task, 0)
  else
    exec tell (E_driver power_get_power_state_call (uuid (attrs node)));
    match power_get_power_state (task_driver task) (attrs node) with
    | inl _ => sync_reading_failed env task count NOSTATE
    | inr ERROR => sync_reading_failed env task count ERROR
    | inr power_state' =>
        do node <-
          (if power_state_eqb (power_state (attrs node)) NOSTATE
           then save (set_power_state node power_state')
           else ret node);
        let task := with_node task node in
        if power_state_eqb (power_state (attrs node)) power_state'
        then ret (task, 0)
        else if count >? power_state_sync_max_retries (CONF env) then
          do node <-
            handle_sync_power_state_max_retries_exceeded node power_state';
          ret (with_node task node, count)
        else if force_power_state_during_sync (CONF env) then
          do node <-
            try_except
              (node_power_action env node (power_state (attrs node)))
              (fun _ => true)
              (fun _ => ret node);
          ret (with_node task node, count)
        else
          do node <- save (set_power_state node power_state');
          ret (with_node task node, count)
    end.

(** ** [ironic/drivers/modules/irmc/common.py] *)

Module irmc.

(** [CONF.irmc]: two [IntOpt]s and one [StrOpt]. *)
Record Opts := mkOpts {
  port : Z;
  auth_method : string;
  client_timeout : Z
}.

Definition default_opts : Opts := mkOpts 443 "basic" 60.

Definition REQUIRED_PROPERTIES : list string :=
  ["irmc_address"; "irmc_username"; "irmc_password"].

Definition OPTIONAL_PROPERTIES : list string :=
  ["port"; "auth_method"; "client_timeout"].

(** [CONF.irmc.get(param)] *)
Definition conf_get (conf : Opts) (param : string) : pyval :=
  if String.eqb param "port" then PInt (port conf)
  else if String.eqb param "auth_method" then PStr (auth_method conf)
  else if String.eqb param "client_timeout" then PInt (client_timeout conf)
  else PNone.

(** [not info.get(key)] *)
Definition not_get (info : gmap string pyval) (key : string) : bool :=
  match info !! key with
  | None => true
  | Some v => negb (truthy v)
  end.

(** [x not in (80, 443)], with Python's [==] between values. *)
Definition not_in_80_443 (v : pyval) : bool :=
  match v with
  | PInt z => negb ((z =? 80) || (z =? 443))
  | _ => true
  end.

(** [isinstance(x, int)]; [bool] is a subclass of [int]. *)
Definition isinstance_int (v : pyval) : bool :=
  match v with
  | PInt _ | PBool _ => true
  | _ => false
  end.

(** ["\n".join(msgs)] *)
Definition newline : string := String (ascii_of_nat 10) EmptyString.

Fixpoint join_lines (msgs : list string) : string :=
  match msgs with
  | [] => ""
  | [m] => m
  | m :: rest => m +:+ newline +:+ join_lines rest
  end.

(** [str(list)] of the missing keys, as the message shows them. *)
Fixpoint repr_list_items (l : list string) : string :=
  match l with
  | [] => ""
  | [k] => "'" +:+ k +:+ "'"
  | k :: rest => "'" +:+ k +:+ "', " +:+ repr_list_items rest
  end.

Definition unsupported_value (k : string) : string :=
  "'" +:+ k +:+ "' has unsupported value.".

Definition not_integer (k : string) : string :=
  "'" +:+ k +:+ "' is not integer type.".

Definition parse_driver_info (conf : Opts) (node : Node)
    : exn + gmap string pyval :=
  let info := driver_info node in
  let missing_info := List.filter (not_get info) REQUIRED_PROPERTIES in
  match missing_info with
  | _ :: _ =>
      inl (MissingParameterValue
             ("Missing the following iRMC parameters in node's" +:+
              " driver_info: [" +:+ repr_list_items missing_info +:+ "]."))
  | [] =>
      let req : gmap string pyval :=
        filter (fun kv => kv.1 ∈ REQUIRED_PROPERTIES) info in
      let opt : gmap string pyval :=
        list_to_map
          (List.map
             (fun param =>
                ("irmc_" +:+ param,
                 default (conf_get conf param) (info !! ("irmc_" +:+ param))))
             OPTIONAL_PROPERTIES) in
      (* dict(list(req.items()) + list(opt.items())): later pairs win *)
      let d_info := opt ∪ req in
      let d v := default PNone (d_info !! v) in
      match d "irmc_auth_method" with
      | PStr s =>
          let e1 :=
            if negb (str_in (lower s) ["basic"; "digest"])
            then [unsupported_value "irmc_auth_method"] else [] in
          let e2 :=
            if not_in_80_443 (d "irmc_port")
            then [unsupported_value "irmc_port"] else [] in
          let e3 :=
            if negb (isinstance_int (d "irmc_client_timeout"))
            then [not_integer "irmc_client_timeout"] else [] in
          let error_msgs := (e1 ++ e2 ++ e3)%list in
          match error_msgs with
          | _ :: _ =>
              inl (InvalidParameterValue
                     ("The following type errors were encountered while " +:+
                      "parsing driver_info:" +:+ newline +:+
                      join_lines error_msgs))
          | [] => inr d_info
          end
      | _ =>
          (* [.lower()] on a value that is not a string *)
          inl AttributeError
      end
  end.

End irmc.

(** ** A small deployment on which the handlers are run *)

(** Modelled from the spec: the provisioning state machine of section 4.F
    ([ironic/common/states.py] and [ironic/common/fsm.py]), restricted to
    the transitions the table there lists. *)
Definition spec_fsm (st : states.provision_state) (event : string)
    : option (states.provision_state * option states.provision_state) :=
  if String.eqb event "error" then Some (st, None)
  else
    match st with
    | AVAILABLE =>
        if String.eqb event "deploy" then Some (DEPLOYING, Some ACTIVE)
        else None
    | ACTIVE =>
        if String.eqb event "rebuild" then Some (DEPLOYING, Some ACTIVE)
        else if String.eqb event "delete" then Some (DELETING, None)
        else None
    | DEPLOYING =>
        if String.eqb event "wait" then Some (DEPLOYWAIT, Some ACTIVE)
        else if String.eqb event "done" then Some (ACTIVE, None)
        else None
    | DEPLOYWAIT =>
        if String.eqb event "done" then Some (ACTIVE, None)
        else if String.eqb event "fail" then Some (DEPLOYFAIL, None)
        else None
    | DELETING =>
        if String.eqb event "done" then Some (AVAILABLE, None) else None
    | _ => None
    end.

Definition fake_status : Route :=
  mkRoute (fun _ _ => inr (Some "ok")) ["GET"] false.

Definition fake_flash : Route :=
  mkRoute (fun _ _ => inr None) ["POST"; "PUT"] true.

Definition fake_vendor : VendorIface :=
  mkVendor false (fun _ _ _ _ => None)
    (list_to_map [("status", fake_status); ("flash", fake_flash)]).

Definition fake_console : ConsoleIface := mkConsole (fun _ => None).

(** A driver whose hardware always reads [reading]. *)
Definition fake_driver (reading : exn + states.power_state) : Driver :=
  mkDriver (fun _ => None) (fun _ => reading) (fun _ => None)
    (Some fake_console) (Some fake_vendor).

(** The rows in [DEPLOYWAIT] that are neither reserved nor in maintenance:
    every waiting deploy counts as timed out. *)
Definition waiting_nodeinfo (m : gmap string Node)
    : list (string * string) :=
  List.map (fun kv => (kv.1, driver kv.2))
    (List.filter
       (fun kv => provision_state_eqb (provision_state kv.2) DEPLOYWAIT
                  && negb (maintenance kv.2)
                  && match reservation kv.2 with
                     | None => true
                     | Some _ => false
                     end)
       (map_to_list m)).

Definition demo_env (conf : Conf) (reading : exn + states.power_state)
    : Env :=
  mkEnv "conductor-1" conf
    (fun name => if String.eqb name "fake" then Some (fake_driver reading)
                 else None)
    spec_fsm (fun _ _ => true) waiting_nodeinfo (fun node _ => ret node).

(** [CONF.conductor] with the defaults of [conductor_opts], but with the
    database following the hardware during a power sync. *)
Definition demo_conf : Conf := mkConf 1800 false 3 8 100.

Definition demo_node (id : string) (ps : states.power_state)
    (st : states.provision_state) : Node :=
  mkNode id "fake" ps NOSTATE st None false None None None
    (list_to_map [("kernel", "k-1"); ("ramdisk", "r-1"); ("image", "i-1")])
    ∅ false None.

Definition demo_world (n : Node) : World :=
  mkWorld {[uuid n := n]} [] [].

(** ** Substring test, for messages that must mention a phrase *)

Fixpoint is_prefix (p s : string) : bool :=
  match p, s with
  | EmptyString, _ => true
  | String a p', String b s' => Ascii.eqb a b && is_prefix p' s'
  | String _ _, EmptyString => false
  end.

Fixpoint mentions (s phrase : string) : bool :=
  is_prefix phrase s
  || match s with
     | EmptyString => false
     | String _ s' => mentions s' phrase
     end.

Import irmc.

(** ** Vocabulary of the statements *)

(** The target recorded for a requested state: [REBOOT] becomes [POWER_ON]. *)
Definition recorded_target (new_state : states.power_state)
    : states.power_state :=
  match new_state with
  | REBOOT => POWER_ON
  | requested => requested
  end.

(** The cached image references a rebuild drops from [instance_info]. *)
Definition purged (ii : gmap string string) : gmap string string :=
  delete "ramdisk" (delete "kernel" ii).

(** The row a rebuild stores before the event: [instance_info] without
    its cached image references. A plain deploy stores nothing then. *)
Definition after_purge (rebuild : bool) (row : Node) : Node :=
  if rebuild then
    mkNode (uuid row) (driver row) (power_state row) (target_power_state row)
      (provision_state row) (target_provision_state row) (maintenance row)
      (maintenance_reason row) (reservation row) (instance_uuid row)
      (purged (instance_info row)) (driver_info row) (console_enabled row)
      (last_error row)
  else row.

(** The row once the state machine has accepted the request: its new
    state and target, and [last_error] cleared. *)
Definition deploy_started (st : states.provision_state)
    (tgt : option states.provision_state) (row : Node) : Node :=
  mkNode (uuid row) (driver row) (power_state row) (target_power_state row)
    st tgt (maintenance row) (maintenance_reason row) (reservation row)
    (instance_uuid row) (instance_info row) (driver_info row)
    (console_enabled row) None.

(** The effects of [do_node_deploy] up to and including the FSM event:
    the reservation, the two [validate] calls, for a rebuild the save of
    the purged node, and the event. *)
Definition deploy_dispatch (rebuild : bool) (node_id : string)
    (locked : Node) : list Effect :=
  ([E_reserve node_id;
    E_driver power_validate_call node_id;
    E_driver deploy_validate_call node_id] ++
   (if rebuild then [E_save node_id (after_purge true locked)] else []) ++
   [E_process_event node_id (if rebuild then "rebuild" else "deploy")])%list.

(** The node as the maintenance escalation leaves it. *)
Definition escalated (n : Node) (actual : states.power_state) : Node :=
  mkNode (uuid n) (driver n) actual (target_power_state n)
    (provision_state n) (target_provision_state n) true
    (Some (max_retries_msg n actual)) (reservation n) (instance_uuid n)
    (instance_info n) (driver_info n) (console_enabled n)
    (Some (max_retries_msg n actual)).

Definition is_fail_event (e : Effect) : bool :=
  match e with
  | E_process_event _ ev => String.eqb ev "fail"
  | _ => false
  end.

(** The number of FSM ['fail'] events a trace shows. *)
Definition fail_events (tr : list Effect) : Z :=
  Z.of_nat (length (List.filter is_fail_event tr)).

(** Every row sits under its own uuid. *)
Definition keyed_by_uuid (m : gmap string Node) : Prop :=
  forall k n, m !! k = Some n -> uuid n = k.

Definition two_waiting : World :=
  mkWorld (list_to_map [("n1", demo_node "n1" POWER_ON DEPLOYWAIT);
                        ("n2", demo_node "n2" POWER_ON DEPLOYWAIT)])
    [] [].

Definition capped_conf (cap : Z) : Conf := mkConf 1800 false 3 cap 100.

(** The value [parse_driver_info] works with for an optional parameter:
    the node's own, or the configured one when the key is absent. *)
Definition effective (conf : Opts) (info : gmap string pyval)
    (param : string) : pyval :=
  default (conf_get conf param) (info !! ("irmc_" +:+ param)).

Definition missing_required (info : gmap string pyval) : bool :=
  not_get info "irmc_address" || not_get info "irmc_username"
  || not_get info "irmc_password".

Definition node_with_info (info : gmap string pyval) : Node :=
  mkNode "n1" "irmc" NOSTATE NOSTATE AVAILABLE None false None None None ∅
    info false None.

Definition good_info : gmap string pyval :=
  list_to_map [("irmc_address", PStr "10.0.0.1");
               ("irmc_username", PStr "admin");
               ("irmc_password", PStr "secret")].

(** What the three value checks reject. *)
Definition invalid_values (conf : Opts) (info : gmap string pyval) : bool :=
  match effective conf info "auth_method" with
  | PStr s => negb (str_in (lower s) ["basic"; "digest"])
  | _ => true
  end
  || not_in_80_443 (effective conf info "port")
  || negb (isinstance_int (effective conf info "client_timeout")).

(** ** More of [ironic/conductor/manager.py] *)

(** [node.console_enabled = v] *)
Definition set_console_enabled (o : NodeObj) (v : bool) : NodeObj :=
  let n := attrs o in
  mkObj (mkNode (uuid n) (driver n) (power_state n) (target_power_state n)
           (provision_state n) (target_provision_state n) (maintenance n)
           (maintenance_reason n) (reservation n) (instance_uuid n)
           (instance_info n) (driver_info n) v (last_error n))
        (F_console_enabled :: changed o).

(** [node.driver_info = v] *)
Definition set_driver_info (o : NodeObj) (v : gmap string pyval) : NodeObj :=
  let n := attrs o in
  mkObj (mkNode (uuid n) (driver n) (power_state n) (target_power_state n)
           (provision_state n) (target_provision_state n) (maintenance n)
           (maintenance_reason n) (reservation n) (instance_uuid n)
           (instance_info n) v (console_enabled n) (last_error n))
        (F_driver_info :: changed o).

(** [ConductorManager._filter_out_unsupported_types]; the first argument
    is [CONF.conductor.send_sensor_data_types]. *)
Definition _filter_out_unsupported_types {V}
    (send_sensor_data_types : list string) (sensors_data : gmap string V)
    : gmap string V :=
  let allowed := List.map lower send_sensor_data_types in
  if str_in "all" allowed then sensors_data
  else
    filter (fun kv => str_in (lower kv.1) allowed = true) sensors_data.

(** [get_vendor_passthru_metadata]: a route is the dictionary the
    decorator built, ['func'] included. *)
Definition get_vendor_passthru_metadata {V}
    (route_dict : gmap string (gmap string V)) : gmap string (gmap string V) :=
  (fun metadata : gmap string V =>
     filter (fun kv => kv.1 <> "func") metadata) <$> route_dict.

(** What a route dictionary holds under its keys. *)
Inductive RouteValue :=
| RV_func (f : Node -> gmap string string -> exn + option string)
| RV_http_methods (l : list string)
| RV_async (b : bool).

(** The dictionary form of a [Route]. *)
Definition route_dict_of (r : Route) : gmap string RouteValue :=
  list_to_map [("func", RV_func (func r));
               ("http_methods", RV_http_methods (http_methods r));
               ("async", RV_async (async r))].

(** [ConductorManager.get_node_vendor_passthru_methods] *)
Definition get_node_vendor_passthru_methods (env : Env) (node_id : string)
    : M (gmap string (gmap string RouteValue)) :=
  with_task env node_id true None (fun task =>
    match vendor (task_driver task) with
    | None => raise (UnsupportedDriverExtension "vendor interface")
    | Some vendor_iface =>
        ret (task,
             get_vendor_passthru_metadata
               (route_dict_of <$> vendor_routes vendor_iface))
    end).

(** [ConductorManager._set_console_mode], the job [set_console_mode]
    spawns. [start_console] and [stop_console] are the console interface's
    operations, oracles like its [validate]. *)
Definition _set_console_mode (start_console stop_console : Node -> option exn)
    (task : Task) (enabled : bool) : M Task :=
  let node := task_node task in
  exec tell (E_driver (if enabled then console_start_call
                       else console_stop_call) (uuid (attrs node)));
  match (if enabled then start_console else stop_console) (attrs node) with
  | Some e =>
      let op := if enabled then "enabling" else "disabling" in
      let msg := "Error " +:+ op +:+ " the console on node " +:+
                 uuid (attrs node) +:+ ". Reason: " +:+ exn_str e in
      let node := set_last_error node (Some msg) in
      (* finally *)
      exec save node;
      raise e
  | None =>
      let node := set_console_enabled node enabled in
      let node := set_last_error node None in
      (* finally *)
      do node <- save node;
      ret (with_node task node)
  end.

(** [task.process_event(event)] inside a [try], with the exception, if
    any, handed back as a value beside the task. When the event is refused
    the node object is untouched; when the save inside fails the row is
    gone and every later save fails the same way. *)
Definition process_event_caught (env : Env) (task : Task) (event : string)
    : M (Task * option exn) :=
  fun w =>
    match process_event env task event None None w with
    | (w', inl e) => (w', inr (task, Some e))
    | (w', inr task') => (w', inr (task', None))
    end.

(** The module function [do_node_tear_down(task)], the job the RPC of the
    same name spawns. [clean_up] and [tear_down] are the deploy interface's
    operations. An exception raised while the first one is being handled
    takes its place ([save_and_reraise_exception]); the [finally] block
    runs on every path. *)
Definition do_node_tear_down (env : Env)
    (clean_up tear_down : Node -> option exn) (task : Task) : M Task :=
  let node := task_node task in
  let failure :=
    match clean_up (attrs node) with
    | Some e => Some e
    | None => tear_down (attrs node)
    end in
  do r <-
    match failure with
    | Some e =>
        let node :=
          set_last_error node
            (Some ("Failed to tear down. Error: " +:+ exn_str e)) in
        do r <- process_event_caught env (with_node task node) "error";
        ret (fst r, Some (default e (snd r)))
    | None =>
        do r <- process_event_caught env task "done";
        match snd r with
        | Some e => ret (fst r, Some e)
        | None =>
            ret (with_node (fst r)
                   (set_target_provision_state (task_node (fst r)) None),
                 None)
        end
    end;
  (* finally *)
  let task := fst r in
  do node <- save (set_instance_info (task_node task) ∅);
  match snd r with
  | Some e => raise e
  | None => ret (with_node task node)
  end.

(** ** Periodic task [_sync_power_states] *)

(** [self.power_state_sync_count[node_uuid]] on a [defaultdict(int)]: a
    missing key is inserted with 0 by the read. *)
Definition sync_count_read (counts : gmap string Z) (node_uuid : string)
    : gmap string Z * Z :=
  match counts !! node_uuid with
  | Some c => (counts, c)
  | None => (<[node_uuid := 0]> counts, 0)
  end.

(** The [with task_manager.acquire(context, node_id) as task] block of one
    iteration. It answers the counter table as the block left it and the
    exception [do_sync_power_state] raised, if any, which the caller
    raises again: the reservation is released the same way on both exits,
    and the entry the read inserted outlives the exception. *)
Definition sync_power_state_locked (env : Env) (node_id node_uuid : string)
    (counts : gmap string Z) : M (gmap string Z * option exn) :=
  with_task env node_id false None (fun task =>
    if provision_state_eqb (provision_state (attrs (task_node task)))
         DEPLOYWAIT
       || maintenance (attrs (task_node task))
    then ret (task, (counts, None))
    else
      let rd := sync_count_read counts node_uuid in
      fun w =>
        match do_sync_power_state env task (snd rd) w with
        | (w', inl e) => (w', inr (task, (fst rd, Some e)))
        | (w', inr (task', count)) =>
            (w', inr (task',
                      (if count =? 0 then delete node_uuid (fst rd)
                       else <[node_uuid := count]> (fst rd),
                       None)))
        end).

(** One iteration of the loop, inside its [try]. *)
Definition sync_power_state_iteration (env : Env)
    (node_id node_uuid driver : string) (counts : gmap string Z)
    : M (gmap string Z * option exn) :=
  if negb (mapped_to_this_conductor env node_uuid driver) then
    ret (counts, None)
  else
    do node <- get_node node_id;
    if provision_state_eqb (provision_state node) DEPLOYWAIT
       || maintenance node
       || match reservation node with Some _ => true | None => false end
    then ret (counts, None)
    else sync_power_state_locked env node_id node_uuid counts.

Definition is_NodeNotFound_or_NodeLocked (e : exn) : bool :=
  match e with
  | NodeNotFound | NodeLocked => true
  | _ => false
  end.

(** The loop of [_sync_power_states] over the rows
    [(node_id, node_uuid, driver)], threading
    [self.power_state_sync_count]. [NodeNotFound] and [NodeLocked] are
    logged and the loop goes on; any other exception ends the task, with
    the counter table as it stands. *)
Fixpoint _sync_power_states_loop (env : Env)
    (node_list : list (string * string * string)) (counts : gmap string Z)
    : World -> World * (gmap string Z * option exn) :=
  fun w =>
    match node_list with
    | [] => (w, (counts, None))
    | (node_id, node_uuid, driver) :: rest =>
        match sync_power_state_iteration env node_id node_uuid driver
                counts w with
        | (w', inr (counts', None)) =>
            _sync_power_states_loop env rest counts' w'
        | (w', inr (counts', Some e)) =>
            if is_NodeNotFound_or_NodeLocked e
            then _sync_power_states_loop env rest counts' w'
            else (w', (counts', Some e))
        | (w', inl e) =>
            if is_NodeNotFound_or_NodeLocked e
            then _sync_power_states_loop env rest counts w'
            else (w', (counts, Some e))
        end
    end.

(** [_sync_power_states]; [unlocked_nodeinfo] is what
    [dbapi.get_nodeinfo_list] answers for the filters
    [reserved = False, maintenance = False]. *)
Definition _sync_power_states (env : Env)
    (unlocked_nodeinfo : gmap string Node -> list (string * string * string))
    (counts : gmap string Z) : World -> World * (gmap string Z * option exn) :=
  fun w =>
    _sync_power_states_loop env (unlocked_nodeinfo (db w)) counts
      (log E_get_nodeinfo_list w).

(** ** More of [ironic/drivers/modules/irmc/common.py] *)

(** [update_ipmi_properties(task)] *)
Definition update_ipmi_properties (task : Task) : Task :=
  let node := task_node task in
  let info := driver_info (attrs node) in
  let info := <["ipmi_address" := default PNone (info !! "irmc_address")]>
                info in
  let info := <["ipmi_username" := default PNone (info !! "irmc_username")]>
                info in
  let info := <["ipmi_password" := default PNone (info !! "irmc_password")]>
                info in
  with_node task (set_driver_info node info).

(** [d[key]]: a missing key raises [KeyError]. *)
Definition getitem (d : gmap string pyval) (key : string) : exn + pyval :=
  match d !! key with
  | Some v => inr v
  | None => inl (OtherException ("KeyError: '" +:+ key +:+ "'"))
  end.

(** [get_irmc_client(node)]; [get_client] is [scci.get_client], called
    with the address, user name, password, port, authentication method and
    timeout. *)
Definition get_irmc_client {C} (conf : Opts)
    (get_client : pyval -> pyval -> pyval -> pyval -> pyval -> pyval
                  -> exn + C)
    (node : Node) : exn + C :=
  match parse_driver_info conf node with
  | inl e => inl e
  | inr driver_info =>
      match getitem driver_info "irmc_address",
            getitem driver_info "irmc_username",
            getitem driver_info "irmc_password",
            getitem driver_info "irmc_port",
            getitem driver_info "irmc_auth_method",
            getitem driver_info "irmc_client_timeout" with
      | inr a, inr u, inr p, inr port, inr auth, inr timeout =>
          get_client a u p port auth timeout
      | inl e, _, _, _, _, _ | _, inl e, _, _, _, _ | _, _, inl e, _, _, _
      | _, _, _, inl e, _, _ | _, _, _, _, inl e, _ | _, _, _, _, _, inl e =>
          inl e
      end
  end.

(** ** Vocabulary of the further statements *)

Definition digest_info : gmap string pyval :=
  <["irmc_auth_method" := PStr "Digest"]>
    (<["ipmi_address" := PStr "stale"]> good_info).

(** A driver whose power interface rejects the node's [driver_info]. *)
Definition unconfigured_driver : Driver :=
  mkDriver (fun _ => Some (MissingParameterValue "ipmi_address"))
    (fun _ => inr POWER_ON) (fun _ => None) None None.

Definition unconfigured_env : Env :=
  mkEnv "conductor-1" demo_conf (fun _ => Some unconfigured_driver)
    spec_fsm (fun _ _ => true) waiting_nodeinfo (fun node _ => ret node).

(** What [do_node_deploy] raises for an exception of a [validate] call. *)
Definition deploy_validation_error (e : exn) : exn :=
  if is_parameter_error e then
    InstanceDeployFailure
      ("RPC do_node_deploy failed to validate deploy or power info. Error: "
       +:+ exn_str e)
  else e.

(** A driver whose vendor interface still has its own [vendor_passthru]
    and no route at all. *)
Definition legacy_vendor : VendorIface :=
  mkVendor true (fun _ _ _ _ => None) ∅.

Definition legacy_driver : Driver :=
  mkDriver (fun _ => None) (fun _ => inr POWER_OFF) (fun _ => None)
    None (Some legacy_vendor).

Definition legacy_env : Env :=
  mkEnv "conductor-1" demo_conf (fun _ => Some legacy_driver)
    spec_fsm (fun _ _ => true) waiting_nodeinfo (fun node _ => ret node).

(** The row with [last_error] replaced. *)
Definition with_last_error (e : option string) (n : Node) : Node :=
  mkNode (uuid n) (driver n) (power_state n) (target_power_state n)
    (provision_state n) (target_provision_state n) (maintenance n)
    (maintenance_reason n) (reservation n) (instance_uuid n)
    (instance_info n) (driver_info n) (console_enabled n) e.

(** The row with [console_enabled] replaced. *)
Definition with_console_enabled (b : bool) (n : Node) : Node :=
  mkNode (uuid n) (driver n) (power_state n) (target_power_state n)
    (provision_state n) (target_provision_state n) (maintenance n)
    (maintenance_reason n) (reservation n) (instance_uuid n)
    (instance_info n) (driver_info n) b (last_error n).

(** The message [_set_console_mode] records for a console failure. *)
Definition console_error_msg (enabled : bool) (n : Node) (e : exn)
    : string :=
  "Error " +:+ (if enabled then "enabling" else "disabling") +:+
  " the console on node " +:+ uuid n +:+ ". Reason: " +:+ exn_str e.

(** Why [task_manager.acquire(..., shared=False)] refuses a node: there is
    no such row, or the row is reserved. *)
Definition acquire_refusal (w : World) (node_id : string) : option exn :=
  match db w !! node_id with
  | None => Some NodeNotFound
  | Some row =>
      match reservation row with
      | Some _ => Some NodeLocked
      | None => None
      end
  end.

(** A node on a driver that this conductor has not loaded, moved to
    ["fake"] by the request. *)
Definition foreign_node : Node :=
  mkNode "n1" "other-driver" POWER_OFF NOSTATE AVAILABLE None false None
    None None ∅ ∅ false None.

Definition to_fake_driver : NodeObj :=
  mkObj (mkNode "n1" "fake" POWER_OFF NOSTATE AVAILABLE None false None
           None None ∅ ∅ false None) [F_driver].

(** The row as [do_node_tear_down] stores it: the given provision state,
    target and [last_error], and no [instance_info]. *)
Definition torn_down (st : states.provision_state)
    (tgt : option states.provision_state) (err : option string)
    (n : Node) : Node :=
  mkNode (uuid n) (driver n) (power_state n) (target_power_state n)
    st tgt (maintenance n) (maintenance_reason n) (reservation n)
    (instance_uuid n) ∅ (driver_info n) (console_enabled n) err.

(** The first exception of [clean_up] then [tear_down], if any. *)
Definition tear_down_failure (clean_up tear_down : Node -> option exn)
    (n : Node) : option exn :=
  match clean_up n with
  | Some e => Some e
  | None => tear_down n
  end.

(** The strings on which [upper] and [lower] above are Python's
    [unicode.upper] and [unicode.lower]: every character is ASCII. Outside
    them Python also maps letters the two functions here leave alone. *)
Definition ascii_only (s : string) : bool :=
  forallb (fun c => (nat_of_ascii c <? 128)%nat) (list_ascii_of_string s).

(** * Properties *)

(** ** Equality tests *)

Lemma power_state_eqb_eq a b : power_state_eqb a b = true <-> a = b.
Proof. destruct a, b; simpl; split; congruence. Qed.

Lemma provision_state_eqb_eq a b : provision_state_eqb a b = true <-> a = b.
Proof. destruct a, b; simpl; split; congruence. Qed.

(** ** change_node_power_state *)

(** C1. On a node that can be locked and whose power interface validates,
    [change_node_power_state] saves [target_power_state] (the requested
    state, [REBOOT] mapped to [POWER_ON]) and a cleared [last_error], then
    hands [node_power_action] to the worker pool; when the pool has no free
    worker the call fails with [NoFreeConductorWorker] after the hook has
    saved the prior [power_state], [target_power_state = NOSTATE] and a
    [last_error] mentioning "No free conductor workers". *)
Theorem change_node_power_state_spec
    (env : Env) (w : World) (node_id : string)
    (new_state : states.power_state) (row : Node) (d : Driver) :
  db w !! node_id = Some row ->
  uuid row = node_id ->
  reservation row = None ->
  driver_factory env (driver row) = Some d ->
  power_validate d (with_reservation (Some (host env)) row) = None ->
  let job := J_node_power_action node_id new_state in
  let started :=
    mkNode node_id (driver row) (power_state row) (recorded_target new_state)
      (provision_state row) (target_provision_state row) (maintenance row)
      (maintenance_reason row) (Some (host env)) (instance_uuid row)
      (instance_info row) (driver_info row) (console_enabled row) None in
  let rolled_back :=
    mkNode node_id (driver row) (power_state row) NOSTATE
      (provision_state row) (target_provision_state row) (maintenance row)
      (maintenance_reason row) None (instance_uuid row)
      (instance_info row) (driver_info row) (console_enabled row)
      (Some no_free_workers_msg) in
  (free env w <> O ->
   exists w',
     change_node_power_state env node_id new_state w = (w', inr tt)
     /\ db w' = <[node_id := started]> (db w)
     /\ running w' = (running w ++ [job])%list
     /\ trace w' =
          (trace w ++ [E_reserve node_id;
                       E_driver power_validate_call node_id;
                       E_save node_id started;
                       E_spawn job])%list)
  /\
  (free env w = O ->
   exists w',
     change_node_power_state env node_id new_state w
       = (w', inl NoFreeConductorWorker)
     /\ db w' = <[node_id := rolled_back]> (db w)
     /\ running w' = running w
     /\ trace w' =
          (trace w ++ [E_reserve node_id;
                       E_driver power_validate_call node_id;
                       E_save node_id started;
                       E_save node_id
                         (with_reservation (Some (host env)) rolled_back);
                       E_release node_id])%list
     /\ mentions no_free_workers_msg "No free conductor workers" = true).
Proof.
  intros Hdb Hid Hres Hdrv Hval job started rolled_back.
  subst job started rolled_back node_id.
  split; intros Hfree.
  - unfold change_node_power_state, with_task, acquire.
    rewrite Hdb. simpl. rewrite Hdrv, Hres. simpl.
    unfold call_driver, bind, tell, log. simpl. rewrite Hval. simpl.
    unfold save, recorded_target.
    destruct new_state; simpl; rewrite lookup_insert_eq; simpl;
    unfold _spawn_worker, free in *; simpl;
    (destruct (workers_pool_size (CONF env) - length (running w))%nat; [done|]);
    (eexists; split; [reflexivity|]); simpl;
    rewrite insert_insert_eq, <- !app_assoc; repeat split; reflexivity.
  - unfold change_node_power_state, with_task, acquire.
    rewrite Hdb. simpl. rewrite Hdrv, Hres. simpl.
    unfold call_driver, bind, tell, log. simpl. rewrite Hval. simpl.
    unfold save, recorded_target.
    destruct new_state; simpl; rewrite lookup_insert_eq; simpl;
    unfold _spawn_worker, free in *; simpl; rewrite Hfree; simpl;
    unfold save; simpl; rewrite lookup_insert_eq; simpl;
    unfold release_resources; simpl; rewrite lookup_insert_eq; simpl;
    (rewrite bool_decide_eq_true_2 by reflexivity); simpl;
    (eexists; split; [reflexivity|]); simpl;
    rewrite !insert_insert_eq, <- !app_assoc; repeat split; reflexivity.
Qed.

Lemma change_node_power_state_spec_witness :
  exists w',
    change_node_power_state (demo_env demo_conf (inr POWER_ON)) "n1" REBOOT
      (demo_world (demo_node "n1" POWER_ON ACTIVE)) = (w', inr tt)
    /\ target_power_state <$> db w' !! "n1" = Some POWER_ON
    /\ running w' = [J_node_power_action "n1" REBOOT].
Proof.
  destruct (change_node_power_state_spec
              (demo_env demo_conf (inr POWER_ON))
              (demo_world (demo_node "n1" POWER_ON ACTIVE))
              "n1" REBOOT (demo_node "n1" POWER_ON ACTIVE)
              (fake_driver (inr POWER_ON)))
    as [Hok _]; try reflexivity.
  destruct Hok as (w' & Hrun & Hdb & Hpool & _); [vm_compute; lia |].
  exists w'. split; [exact Hrun |]. rewrite Hdb, Hpool. split; reflexivity.
Defined.

(** ** do_sync_power_state: the reading and the record *)




(** ** destroy_node *)

Lemma with_reservation_None_id (h : string) (row : Node) :
  reservation row = None ->
  with_reservation None (with_reservation (Some h) row) = row.
Proof. intros H. destruct row; simpl in *. by subst. Qed.

Lemma reserve_release_db (m : gmap string Node) (k h : string) (row : Node) :
  m !! k = Some row -> reservation row = None ->
  <[k := with_reservation None (with_reservation (Some h) row)]>
    (<[k := with_reservation (Some h) row]> m) = m.
Proof.
  intros Hk Hr. rewrite insert_insert_eq, with_reservation_None_id by done.
  by apply insert_id.
Qed.

(** C3. On a node that can be locked, [destroy_node] fails with
    [NodeAssociated] when [instance_uuid] is set; on a node that passed that
    check it fails with [NodeInWrongPowerState] when [power_state] is
    neither [POWER_OFF] nor [NOSTATE]; both failures leave the node table
    as it was. When neither check fails the row is destroyed and a
    following [get_node] fails with [NodeNotFound]. *)
Theorem destroy_node_spec
    (env : Env) (w : World) (node_id : string) (row : Node) (d : Driver) :
  db w !! node_id = Some row ->
  uuid row = node_id ->
  reservation row = None ->
  driver_factory env (driver row) = Some d ->
  let wrong_power :=
    negb (power_state_eqb (power_state row) POWER_OFF
          || power_state_eqb (power_state row) NOSTATE) in
  exists w' r,
    destroy_node env node_id w = (w', r)
    /\ (instance_uuid row <> None ->
        r = inl NodeAssociated /\ db w' = db w)
    /\ (wrong_power = true ->
        (exists e, r = inl e)
        /\ (instance_uuid row = None ->
            exists msg, r = inl (NodeInWrongPowerState msg))
        /\ db w' = db w)
    /\ (instance_uuid row = None -> wrong_power = false ->
        r = inr tt
        /\ db w' = delete node_id (db w)
        /\ snd (get_node node_id w') = inl NodeNotFound).
Proof.
  intros Hdb Hid Hres Hdrv wrong_power. subst wrong_power node_id.
  unfold destroy_node, with_task, acquire.
  rewrite Hdb. simpl. rewrite Hdrv, Hres. simpl.
  destruct (instance_uuid row) as [iu|] eqn:Hiu.
  - simpl. unfold release_resources. simpl.
    rewrite lookup_insert_eq. simpl.
    rewrite bool_decide_eq_true_2 by reflexivity. simpl.
    rewrite reserve_release_db by done.
    do 2 eexists. split; [reflexivity|].
    split; [done|]. split; [|done].
    intros _. split; [by eexists|]. split; [done|reflexivity].
  - destruct (negb _) eqn:Hp; simpl.
    + unfold release_resources. simpl.
      rewrite lookup_insert_eq. simpl.
      rewrite bool_decide_eq_true_2 by reflexivity. simpl.
      rewrite reserve_release_db by done.
      do 2 eexists. split; [reflexivity|].
      split; [done|]. split; [|done].
      intros _. split; [by eexists|]. split; [by eexists|reflexivity].
    + unfold bind, destroy. simpl. rewrite lookup_insert_eq. simpl.
      unfold release_resources. simpl. rewrite lookup_delete_eq. simpl.
      do 2 eexists. split; [reflexivity|].
      split; [done|]. split; [done|].
      intros _ _. split; [done|]. simpl.
      rewrite delete_insert_eq. split; [done|].
      unfold get_node. simpl. by rewrite lookup_delete_eq.
Qed.

Lemma destroy_node_spec_witness :
  let env := demo_env demo_conf (inr POWER_OFF) in
  let w := demo_world (demo_node "n1" POWER_OFF AVAILABLE) in
  snd (destroy_node env "n1" w) = inr tt
  /\ snd (get_node "n1" (fst (destroy_node env "n1" w))) = inl NodeNotFound.
Proof.
  intros env w.
  destruct (destroy_node_spec env w "n1" (demo_node "n1" POWER_OFF AVAILABLE)
              (fake_driver (inr POWER_OFF)))
    as (w' & r & Hrun & _ & _ & H); try reflexivity.
  rewrite Hrun. simpl.
  destruct H as (Hr & _ & Hget); [reflexivity | reflexivity |].
  split; [exact Hr | exact Hget].
Defined.

(** ** update_node *)

(** C4. A node object whose delta mentions [power_state] is refused before
    anything is touched: the world, and with it the stored row, is left as
    it was. A delta that sets [maintenance] to false (and does not mention
    [power_state]), on a node that can be locked, has [maintenance_reason]
    cleared before the one save, and the saved object is returned. *)
Theorem update_node_spec
    (env : Env) (w : World) (node_obj : NodeObj) :
  (in_delta F_power_state (obj_what_changed node_obj) = true ->
   update_node env node_obj w = (w, inl (IronicException update_node_msg)))
  /\
  (forall (row : Node) (d : Driver),
     in_delta F_power_state (obj_what_changed node_obj) = false ->
     in_delta F_maintenance (obj_what_changed node_obj) = true ->
     maintenance (attrs node_obj) = false ->
     db w !! uuid (attrs node_obj) = Some row ->
     uuid row = uuid (attrs node_obj) ->
     reservation row = None ->
     driver_factory env
       (if in_delta F_driver (obj_what_changed node_obj)
        then driver (attrs node_obj) else driver row) = Some d ->
     let cleared := set_maintenance_reason node_obj None in
     let saved :=
       apply_changes (with_reservation (Some (host env)) row) cleared in
     exists w',
       update_node env node_obj w = (w', inr (obj_reset_changes cleared))
       /\ maintenance_reason (attrs (obj_reset_changes cleared)) = None
       /\ maintenance saved = false
       /\ maintenance_reason saved = None
       /\ db w' =
            <[uuid (attrs node_obj) := with_reservation None saved]> (db w)
       /\ trace w' =
            (trace w ++ [E_reserve (uuid (attrs node_obj));
                         E_save (uuid (attrs node_obj)) saved;
                         E_release (uuid (attrs node_obj))])%list).
Proof.
  split.
  - intros Hps. unfold update_node. by rewrite Hps.
  - intros row d Hps Hm Hmf Hdb Hid Hres Hdrv cleared saved.
    unfold update_node. rewrite Hps, Hm, Hmf. simpl.
    unfold with_task, acquire. rewrite Hdb.
    replace (driver_factory env _) with (Some d).
    2:{ rewrite <- Hdrv. by destruct (in_delta F_driver _). }
    rewrite Hres. simpl.
    unfold bind, save. simpl. rewrite lookup_insert_eq. simpl.
    unfold release_resources. simpl. rewrite Hid, lookup_insert_eq. simpl.
    rewrite bool_decide_eq_true_2 by reflexivity. simpl.
    eexists. split; [reflexivity|]. simpl.
    split; [reflexivity|].
    split; [subst saved cleared; unfold apply_changes; simpl;
            unfold obj_what_changed in Hm; rewrite Hm; exact Hmf|].
    split; [reflexivity|].
    rewrite !insert_insert_eq, <- !app_assoc. split; reflexivity.
Qed.

Lemma update_node_spec_witness :
  let row :=
    mkNode "n1" "fake" POWER_OFF NOSTATE AVAILABLE None true
      (Some "broken fan") None None ∅ ∅ false None in
  let obj := set_maintenance (mkObj row []) false in
  exists w',
    update_node (demo_env demo_conf (inr POWER_OFF)) obj (demo_world row)
      = (w', inr (obj_reset_changes (set_maintenance_reason obj None)))
    /\ maintenance_reason <$> db w' !! "n1" = Some None
    /\ maintenance <$> db w' !! "n1" = Some false.
Proof.
  intros row obj.
  destruct (update_node_spec (demo_env demo_conf (inr POWER_OFF))
              (demo_world row) obj) as [_ H].
  destruct (H row (fake_driver (inr POWER_OFF)))
    as (w' & Hrun & _ & _ & _ & Hdb & _); try reflexivity.
  exists w'. split; [exact Hrun |]. rewrite Hdb. split; reflexivity.
Defined.

(** ** do_node_deploy *)

(** C5. On a node that can be locked: a node in maintenance is refused with
    [NodeInMaintenance] (whether or not a rebuild is asked for), the node
    table is unchanged and the trace shows the reservation taken and
    released with no FSM event in between. Otherwise, once the power and
    deploy interfaces validate: a call with [rebuild = true] saves the
    node with ["kernel"] and ["ramdisk"] removed from [instance_info] and
    only then dispatches the event ["rebuild"], and whatever the state
    machine and the pool answer, the stored node ends without the two
    keys; a call with [rebuild = false] dispatches ["deploy"] with no save
    before it and the stored [instance_info] is as it was. When the
    machine accepts the event and a worker is free the call returns, the
    stored node is the (purged) node in the machine's new state and target
    with [last_error] cleared, still reserved for the queued deploy job,
    and the trace is the dispatch, one save and the spawn. All of this
    holds from every world, so also for each of two consecutive calls. *)
Theorem do_node_deploy_spec
    (env : Env) (w : World) (node_id : string) (row : Node) (d : Driver) :
  db w !! node_id = Some row ->
  uuid row = node_id ->
  reservation row = None ->
  driver_factory env (driver row) = Some d ->
  let locked := with_reservation (Some (host env)) row in
  (maintenance row = true ->
   exists w',
     do_node_deploy env node_id true w = (w', inl NodeInMaintenance)
     /\ do_node_deploy env node_id false w = (w', inl NodeInMaintenance)
     /\ db w' = db w
     /\ trace w' = (trace w ++ [E_reserve node_id; E_release node_id])%list)
  /\
  (maintenance row = false ->
   power_validate d locked = None ->
   deploy_validate d locked = None ->
   purged (instance_info row) !! "kernel" = None
   /\ purged (instance_info row) !! "ramdisk" = None
   /\ forall rebuild : bool,
        let event := if rebuild then "rebuild" else "deploy" in
        let run := do_node_deploy env node_id rebuild w in
        (exists row' rest,
           db (fst run) !! node_id = Some row'
           /\ instance_info row' = instance_info (after_purge rebuild row)
           /\ trace (fst run) =
                (trace w ++ deploy_dispatch rebuild node_id locked ++ rest)%list)
        /\
        (forall st tgt,
           fsm env (provision_state row) event = Some (st, tgt) ->
           free env w <> O ->
           let stored := deploy_started st tgt (after_purge rebuild locked) in
           snd run = inr tt
           /\ db (fst run) = <[node_id := stored]> (db w)
           /\ running (fst run) =
                (running w ++ [J_do_node_deploy node_id])%list
           /\ trace (fst run) =
                (trace w ++ deploy_dispatch rebuild node_id locked ++
                 [E_save node_id stored;
                  E_spawn (J_do_node_deploy node_id)])%list)).
Proof.
  intros Hdb Hid Hres Hdrv locked. subst locked node_id. split.
  - intros Hm. unfold do_node_deploy, with_task, acquire.
    rewrite Hdb. simpl. rewrite Hdrv, Hres. simpl. rewrite Hm. simpl.
    unfold release_resources. simpl. rewrite lookup_insert_eq. simpl.
    rewrite bool_decide_eq_true_2 by reflexivity. simpl.
    eexists. split; [reflexivity|]. split; [reflexivity|]. simpl.
    rewrite reserve_release_db, <- !app_assoc by done. split; reflexivity.
  - intros Hm Hpv Hdv.
    split; [unfold purged; by rewrite lookup_delete_ne, lookup_delete_eq|].
    split; [unfold purged; by rewrite lookup_delete_eq|].
    intros rebuild event run. subst event run.
    destruct row as [u dr ps tps prs tprs mt mr rs iu ii di ce le].
    simpl in *. subst mt rs.
    unfold do_node_deploy, with_task, acquire.
    rewrite Hdb. simpl. rewrite Hdrv. simpl.
    unfold try_except, call_driver, bind, tell, log. simpl.
    rewrite Hpv. simpl. rewrite Hdv. simpl.
    destruct rebuild; simpl.
    + unfold save. simpl. rewrite lookup_insert_eq. simpl.
      unfold process_event, bind, tell, log. simpl.
      destruct (fsm env prs "rebuild") as [[st tgt]|];
        simpl.
      * unfold save. simpl. rewrite lookup_insert_eq. simpl.
        unfold _spawn_worker, free. simpl.
        destruct (workers_pool_size (CONF env) - length (running w))%nat;
          simpl.
        -- unfold save. simpl. rewrite lookup_insert_eq. simpl.
           unfold release_resources. simpl. rewrite lookup_insert_eq. simpl.
           rewrite bool_decide_eq_true_2 by reflexivity. simpl.
           rewrite lookup_insert_eq. split; [|by intros ? ? _ ?].
           do 2 eexists. split; [reflexivity|]. split; [reflexivity|].
           rewrite <- !app_assoc. reflexivity.
        -- rewrite lookup_insert_eq. split.
           ++ do 2 eexists. split; [reflexivity|]. split; [reflexivity|].
              rewrite <- !app_assoc. reflexivity.
           ++ intros st' tgt' [= <- <-] _. rewrite !insert_insert_eq.
              rewrite <- !app_assoc. by repeat split.
      * unfold release_resources. simpl. rewrite lookup_insert_eq. simpl.
        rewrite bool_decide_eq_true_2 by reflexivity. simpl.
        rewrite lookup_insert_eq. split; [|by intros ? ? ?].
        do 2 eexists. split; [reflexivity|]. split; [reflexivity|].
        rewrite <- !app_assoc. reflexivity.
    + unfold process_event, bind, tell, log. simpl.
      destruct (fsm env prs "deploy") as [[st tgt]|];
        simpl.
      * unfold save. simpl. rewrite lookup_insert_eq. simpl.
        unfold _spawn_worker, free. simpl.
        destruct (workers_pool_size (CONF env) - length (running w))%nat;
          simpl.
        -- unfold save. simpl. rewrite lookup_insert_eq. simpl.
           unfold release_resources. simpl. rewrite lookup_insert_eq. simpl.
           rewrite bool_decide_eq_true_2 by reflexivity. simpl.
           rewrite lookup_insert_eq. split; [|by intros ? ? _ ?].
           do 2 eexists. split; [reflexivity|]. split; [reflexivity|].
           rewrite <- !app_assoc. reflexivity.
        -- rewrite lookup_insert_eq. split.
           ++ do 2 eexists. split; [reflexivity|]. split; [reflexivity|].
              rewrite <- !app_assoc. reflexivity.
           ++ intros st' tgt' [= <- <-] _. rewrite !insert_insert_eq.
              rewrite <- !app_assoc. by repeat split.
      * unfold release_resources. simpl. rewrite lookup_insert_eq. simpl.
        rewrite bool_decide_eq_true_2 by reflexivity. simpl.
        rewrite lookup_insert_eq. split; [|by intros ? ? ?].
        do 2 eexists. split; [reflexivity|]. split; [reflexivity|].
        rewrite <- !app_assoc. reflexivity.
Qed.

Lemma do_node_deploy_spec_witness :
  let env := demo_env demo_conf (inr POWER_OFF) in
  let w := demo_world (demo_node "n1" POWER_OFF ACTIVE) in
  let run := do_node_deploy env "n1" true w in
  snd run = inr tt
  /\ instance_info <$> db (fst run) !! "n1" = Some {["image" := "i-1"]}
  /\ provision_state <$> db (fst run) !! "n1" = Some DEPLOYING
  /\ running (fst run) = [J_do_node_deploy "n1"]
  /\ exists saved,
       trace (fst run) =
         [E_reserve "n1"; E_driver power_validate_call "n1";
          E_driver deploy_validate_call "n1"; E_save "n1" saved;
          E_process_event "n1" "rebuild";
          E_save "n1" (deploy_started DEPLOYING (Some ACTIVE) saved);
          E_spawn (J_do_node_deploy "n1")]
       /\ instance_info saved !! "kernel" = None
       /\ instance_info saved !! "ramdisk" = None.
Proof.
  intros env w run.
  destruct (do_node_deploy_spec env w "n1" (demo_node "n1" POWER_OFF ACTIVE)
              (fake_driver (inr POWER_OFF)) eq_refl eq_refl eq_refl eq_refl)
    as [_ H].
  destruct (H eq_refl eq_refl eq_refl) as (Hk & Hr & Hrun).
  destruct (Hrun true) as [_ Hok].
  destruct (Hok DEPLOYING (Some ACTIVE) eq_refl ltac:(discriminate))
    as (Hres & Hdb & Hpool & Htr).
  split; [exact Hres|]. subst run. rewrite Hdb, lookup_insert_eq.
  split; [reflexivity|]. split; [reflexivity|]. split; [exact Hpool|].
  eexists. split; [exact Htr|]. split; [exact Hk | exact Hr].
Defined.

(** ** vendor_passthru *)

(** C6. On a node that can be locked and a driver whose vendor interface
    uses the route table: a method with no route fails with
    [InvalidParameterValue "No handler for method <name>"]; a method whose
    route does not list the upper-cased HTTP method fails with
    [InvalidParameterValue]; otherwise, once the vendor interface
    validates, an asynchronous route with a free worker answers
    [(None, true)] and leaves the job with the pool, and a synchronous
    route whose function returns [res] answers [(res, false)]. *)
Theorem vendor_passthru_spec
    (env : Env) (w : World) (node_id driver_method http_method : string)
    (info : gmap string string) (row : Node) (d : Driver)
    (v : VendorIface) :
  db w !! node_id = Some row ->
  uuid row = node_id ->
  reservation row = None ->
  driver_factory env (driver row) = Some d ->
  vendor d = Some v ->
  has_legacy_vendor_passthru v = false ->
  let locked := with_reservation (Some (host env)) row in
  let info' := <["http_method" := upper http_method]> info in
  let run := vendor_passthru env node_id driver_method http_method info w in
  (vendor_routes v !! driver_method = None ->
   snd run =
     inl (InvalidParameterValue ("No handler for method " +:+ driver_method)))
  /\
  (forall route,
     vendor_routes v !! driver_method = Some route ->
     (str_in (upper http_method) (http_methods route) = false ->
      exists msg, snd run = inl (InvalidParameterValue msg))
     /\
     (str_in (upper http_method) (http_methods route) = true ->
      vendor_validate v locked driver_method (Some (upper http_method)) info
        = None ->
      (async route = true -> free env w <> O ->
       snd run = inr (None, true)
       /\ running (fst run) =
            (running w ++ [J_vendor_func node_id driver_method info'])%list)
      /\
      (forall res,
         async route = false -> func route locked info' = inr res ->
         snd run = inr (res, false) /\ running (fst run) = running w))).
Proof.
  intros Hdb Hid Hres Hdrv Hv Hleg locked info' run.
  subst locked info' run node_id.
  unfold vendor_passthru, with_task, acquire.
  rewrite Hdb. simpl. rewrite Hdrv, Hres. simpl. rewrite Hv, Hleg.
  split.
  - intros Hr. rewrite Hr. reflexivity.
  - intros route Hr. rewrite Hr. split.
    + intros Hm. rewrite Hm. simpl. by eexists.
    + intros Hm Hval. rewrite Hm. simpl.
      unfold call_driver, bind, tell, log. simpl. rewrite Hval. simpl.
      split.
      * intros Ha Hfree. rewrite Ha. simpl.
        unfold _spawn_worker, free in *. simpl.
        destruct (workers_pool_size (CONF env) - length (running w))%nat;
          [done|]. by simpl.
      * intros res Ha Hf. rewrite Ha. simpl. rewrite Hf. simpl.
        unfold release_resources. simpl. rewrite lookup_insert_eq. simpl.
        rewrite bool_decide_eq_true_2 by reflexivity. by simpl.
Qed.

Lemma vendor_passthru_spec_witness :
  let env := demo_env demo_conf (inr POWER_OFF) in
  let w := demo_world (demo_node "n1" POWER_OFF ACTIVE) in
  snd (vendor_passthru env "n1" "reboot_bmc" "post" ∅ w)
    = inl (InvalidParameterValue "No handler for method reboot_bmc")
  /\ snd (vendor_passthru env "n1" "flash" "post" ∅ w) = inr (None, true)
  /\ snd (vendor_passthru env "n1" "status" "get" ∅ w)
       = inr (Some "ok", false).
Proof.
  intros env w.
  pose proof (vendor_passthru_spec env w "n1" "reboot_bmc" "post" ∅
                (demo_node "n1" POWER_OFF ACTIVE)
                (fake_driver (inr POWER_OFF)) fake_vendor
                eq_refl eq_refl eq_refl eq_refl eq_refl eq_refl) as [H1 _].
  pose proof (vendor_passthru_spec env w "n1" "flash" "post" ∅
                (demo_node "n1" POWER_OFF ACTIVE)
                (fake_driver (inr POWER_OFF)) fake_vendor
                eq_refl eq_refl eq_refl eq_refl eq_refl eq_refl) as [_ H2].
  pose proof (vendor_passthru_spec env w "n1" "status" "get" ∅
                (demo_node "n1" POWER_OFF ACTIVE)
                (fake_driver (inr POWER_OFF)) fake_vendor
                eq_refl eq_refl eq_refl eq_refl eq_refl eq_refl) as [_ H3].
  split; [exact (H1 eq_refl) | split].
  - destruct (H2 fake_flash eq_refl) as [_ H].
    destruct (H eq_refl eq_refl) as [Ha _].
    destruct Ha as [Hret _]; [reflexivity | vm_compute; lia | exact Hret].
  - destruct (H3 fake_status eq_refl) as [_ H].
    destruct (H eq_refl eq_refl) as [_ Hs].
    destruct (Hs (Some "ok") eq_refl eq_refl) as [Hret _]. exact Hret.
Defined.

(** ** set_console_mode *)

(** C7, as stated, fails: the console interface's [validate] is a driver
    call, and it is made before the requested mode is compared with
    [console_enabled], also when the two agree. *)
Lemma set_console_mode_calls_validate :
  ~ (forall (env : Env) (w : World) (node_id : string) (enabled : bool)
            (row : Node),
       db w !! node_id = Some row ->
       console_enabled row = enabled ->
       trace w = [] ->
       forall (c : DriverCall) (u : string),
         E_driver c u ∉ trace (fst (set_console_mode env node_id enabled w))).
Proof.
  intros H.
  apply (H (demo_env demo_conf (inr POWER_OFF))
           (demo_world (demo_node "n1" POWER_OFF AVAILABLE))
           "n1" false (demo_node "n1" POWER_OFF AVAILABLE)
           eq_refl eq_refl eq_refl console_validate_call "n1").
  vm_compute. apply list_elem_of_further, list_elem_of_here.
Qed.

(** C7, amended. When the node can be locked, its driver has a console
    interface and that interface validates, [set_console_mode] with the
    mode the node already has makes the one [validate] call and nothing
    else: neither [start_console] nor [stop_console] is called, no worker
    is spawned, nothing is saved, the node table ends as it was, and the
    reservation is released. *)
Theorem set_console_mode_same_mode
    (env : Env) (w : World) (node_id : string) (enabled : bool)
    (row : Node) (d : Driver) (c : ConsoleIface) :
  db w !! node_id = Some row ->
  uuid row = node_id ->
  reservation row = None ->
  driver_factory env (driver row) = Some d ->
  console d = Some c ->
  console_validate c (with_reservation (Some (host env)) row) = None ->
  console_enabled row = enabled ->
  exists w',
    set_console_mode env node_id enabled w = (w', inr tt)
    /\ db w' = db w
    /\ running w' = running w
    /\ trace w' =
         (trace w ++ [E_reserve node_id;
                      E_driver console_validate_call node_id;
                      E_release node_id])%list.
Proof.
  intros Hdb Hid Hres Hdrv Hcon Hval Hen. subst node_id.
  unfold set_console_mode, with_task, acquire.
  rewrite Hdb. simpl. rewrite Hdrv, Hres. simpl. rewrite Hcon.
  unfold call_driver, bind, tell, log. simpl. rewrite Hval. simpl.
  rewrite Hen, eqb_reflx.
  unfold release_resources. simpl. rewrite lookup_insert_eq. simpl.
  rewrite bool_decide_eq_true_2 by reflexivity. simpl.
  rewrite lookup_insert_eq. simpl.
  rewrite ?bool_decide_eq_false_2 by discriminate. simpl.
  eexists. split; [reflexivity|]. simpl.
  rewrite reserve_release_db, <- !app_assoc by done.
  repeat split; reflexivity.
Qed.

Lemma set_console_mode_same_mode_witness :
  exists w',
    set_console_mode (demo_env demo_conf (inr POWER_OFF)) "n1" false
      (demo_world (demo_node "n1" POWER_OFF AVAILABLE)) = (w', inr tt)
    /\ db w' = db (demo_world (demo_node "n1" POWER_OFF AVAILABLE))
    /\ running w' = [].
Proof.
  destruct (set_console_mode_same_mode (demo_env demo_conf (inr POWER_OFF))
              (demo_world (demo_node "n1" POWER_OFF AVAILABLE)) "n1" false
              (demo_node "n1" POWER_OFF AVAILABLE)
              (fake_driver (inr POWER_OFF)) fake_console)
    as (w' & Hrun & Hdb & Hpool & _); try reflexivity.
  exists w'. split; [exact Hrun |]. split; [exact Hdb | exact Hpool].
Defined.

(** ** _check_deploy_timeouts *)

Lemma fail_events_app (a b : list Effect) :
  fail_events (a ++ b) = fail_events a + fail_events b.
Proof.
  unfold fail_events. rewrite List.filter_app, length_app. lia.
Qed.

Lemma keyed_insert (m : gmap string Node) (k : string) (n : Node) :
  keyed_by_uuid m -> uuid n = k -> keyed_by_uuid (<[k := n]> m).
Proof.
  intros Hm Hn k' n'. rewrite lookup_insert.
  case_decide; [intros [= <-]; congruence | apply Hm].
Qed.

(** One iteration dispatches at most one ['fail'] event, exactly one when
    the block runs to its end, and none when the node is skipped. *)
Lemma fail_timed_out_deploy_events (env : Env) (node_uuid : string)
    (w w' : World) (r : exn + bool) :
  keyed_by_uuid (db w) ->
  fail_timed_out_deploy env node_uuid w = (w', r) ->
  exists delta,
    trace w' = (trace w ++ delta)%list
    /\ keyed_by_uuid (db w')
    /\ match r with
       | inr true => fail_events delta = 1
       | inr false | inl NodeLocked | inl NodeNotFound =>
           fail_events delta = 0
       | inl _ => fail_events delta <= 1
       end.
Proof.
  intros Hk. unfold fail_timed_out_deploy, with_task, acquire.
  destruct (db w !! node_uuid) as [row|] eqn:Hdb; simpl.
  2:{ intros [= <- <-]. exists []. rewrite app_nil_r. by repeat split. }
  pose proof (Hk _ _ Hdb) as Hid. subst node_uuid.
  destruct (reservation row) eqn:Hres; simpl.
  { intros [= <- <-]. exists []. rewrite app_nil_r. by repeat split. }
  destruct (driver_factory env (driver row)) as [d|]; simpl.
  2:{ intros [= <- <-]. eexists. simpl. split; [reflexivity|].
      split; [by apply keyed_insert | by vm_compute]. }
  destruct (maintenance row || negb _); simpl.
  - unfold release_resources. simpl. rewrite lookup_insert_eq. simpl.
    rewrite bool_decide_eq_true_2 by reflexivity. simpl.
    intros [= <- <-]. eexists. simpl.
    split; [rewrite <- !app_assoc; reflexivity|].
    split; [by repeat apply keyed_insert | reflexivity].
  - unfold process_event, bind, tell, log. simpl.
    destruct (fsm env (provision_state row) "fail") as [[st tgt]|]; simpl.
    + unfold save. simpl. rewrite lookup_insert_eq. simpl.
      unfold _spawn_worker, free. simpl.
      destruct (workers_pool_size (CONF env) - length (running w))%nat;
        simpl.
      * unfold save. simpl. rewrite lookup_insert_eq. simpl.
        unfold release_resources. simpl. rewrite lookup_insert_eq. simpl.
        rewrite bool_decide_eq_true_2 by reflexivity. simpl.
        intros [= <- <-]. eexists. simpl.
        split; [rewrite <- !app_assoc; reflexivity|].
        split; [by repeat apply keyed_insert | by vm_compute].
      * intros [= <- <-]. eexists. simpl.
        split; [rewrite <- !app_assoc; reflexivity|].
        split; [by repeat apply keyed_insert | reflexivity].
    + unfold release_resources. simpl. rewrite lookup_insert_eq. simpl.
      rewrite bool_decide_eq_true_2 by reflexivity. simpl.
      intros [= <- <-]. eexists. simpl.
      split; [rewrite <- !app_assoc; reflexivity|].
      split; [by repeat apply keyed_insert | by vm_compute].
Qed.

(** From a count below a positive cap, the loop dispatches no more
    ['fail'] events than the cap leaves room for. *)
Lemma check_deploy_timeouts_loop_cap (env : Env)
    (node_list : list (string * string)) :
  forall (workers_count : Z) (w : World),
    keyed_by_uuid (db w) ->
    0 <= workers_count < periodic_max_workers (CONF env) ->
    fail_events
      (trace (fst (check_deploy_timeouts_loop env node_list workers_count w)))
    <= fail_events (trace w)
       + (periodic_max_workers (CONF env) - workers_count).
Proof.
  induction node_list as [|[node_uuid drv] rest IH]; intros c w Hk Hc.
  - simpl. lia.
  - simpl. destruct (negb (mapped_to_this_conductor env node_uuid drv)).
    + by apply IH.
    + destruct (fail_timed_out_deploy env node_uuid w) as [w' r] eqn:Hrun.
      destruct (fail_timed_out_deploy_events env node_uuid w w' r Hk Hrun)
        as (delta & Htr & Hk' & Hev).
      assert (Hw' : fail_events (trace w') =
                    fail_events (trace w) + fail_events delta)
        by (rewrite Htr; apply fail_events_app).
      destruct r as [e|[|]].
      * destruct e; simpl; try lia.
        -- specialize (IH c w' Hk' Hc). lia.
        -- specialize (IH c w' Hk' Hc). lia.
      * destruct (c + 1 =? periodic_max_workers (CONF env)) eqn:Hcap.
        -- simpl. lia.
        -- apply Z.eqb_neq in Hcap.
           specialize (IH (c + 1) w' Hk' ltac:(lia)). lia.
      * specialize (IH c w' Hk' Hc). lia.
Qed.

(** With [deploy_callback_timeout = 0] the task returns at once: nothing is
    listed, locked, saved or spawned. *)
Lemma check_deploy_timeouts_disabled (env : Env) (w : World) :
  deploy_callback_timeout (CONF env) = 0 ->
  _check_deploy_timeouts env w = (w, inr tt).
Proof. intros H. unfold _check_deploy_timeouts. by rewrite H. Qed.

(** With a cap of at least one, a tick dispatches at most
    [periodic_max_workers] ['fail'] events. *)
Lemma check_deploy_timeouts_cap_positive (env : Env) (w : World) :
  keyed_by_uuid (db w) ->
  1 <= periodic_max_workers (CONF env) ->
  fail_events (trace (fst (_check_deploy_timeouts env w)))
    - fail_events (trace w)
  <= periodic_max_workers (CONF env).
Proof.
  intros Hk Hcap. unfold _check_deploy_timeouts.
  destruct (deploy_callback_timeout (CONF env) =? 0).
  - simpl. lia.
  - pose proof (check_deploy_timeouts_loop_cap env
                  (timed_out_nodeinfo env (db w)) 0
                  (log E_get_nodeinfo_list w) Hk ltac:(lia)) as H.
    simpl in H. rewrite fail_events_app in H.
    change (fail_events [E_get_nodeinfo_list]) with 0 in H. lia.
Qed.

(** A node that is reserved, or gone, is passed over without touching the
    world or the count. *)
Lemma check_deploy_timeouts_loop_skips (env : Env) (node_uuid drv : string)
    (rest : list (string * string)) (workers_count : Z) (w : World) :
  (db w !! node_uuid = None
   \/ exists row h, db w !! node_uuid = Some row
                    /\ reservation row = Some h) ->
  check_deploy_timeouts_loop env ((node_uuid, drv) :: rest) workers_count w
  = check_deploy_timeouts_loop env rest workers_count w.
Proof.
  intros H. simpl.
  destruct (negb (mapped_to_this_conductor env node_uuid drv)); [done|].
  unfold fail_timed_out_deploy, with_task, acquire.
  destruct H as [-> | (row & h & -> & Hres)]; [done|].
  simpl. by rewrite Hres.
Qed.

(** A spawn refused for want of a free worker ends the tick: the rest of
    the list is not looked at. *)
Lemma check_deploy_timeouts_loop_breaks (env : Env) (node_uuid drv : string)
    (rest : list (string * string)) (workers_count : Z) (w : World) :
  mapped_to_this_conductor env node_uuid drv = true ->
  snd (fail_timed_out_deploy env node_uuid w) = inl NoFreeConductorWorker ->
  check_deploy_timeouts_loop env ((node_uuid, drv) :: rest) workers_count w
  = (fst (fail_timed_out_deploy env node_uuid w), inr tt).
Proof.
  intros Hm Hr. simpl. rewrite Hm. simpl.
  destruct (fail_timed_out_deploy env node_uuid w) as [w' r].
  simpl in *. by subst r.
Qed.

(** C8: the cap is lost when [periodic_max_workers] is 0. With two deploys
    timed out, both get their ['fail'] event and their clean-up worker:
    [workers_count] is compared with the cap only after it has been
    raised to 1, and never equals 0. *)
Theorem check_deploy_timeouts_cap_zero :
  let env := demo_env (capped_conf 0) (inr POWER_ON) in
  let w' := fst (_check_deploy_timeouts env two_waiting) in
  periodic_max_workers (CONF env) = 0
  /\ snd (_check_deploy_timeouts env two_waiting) = inr tt
  /\ fail_events (trace w') = 2
  /\ length (running w') = 2%nat.
Proof. vm_compute. repeat split. Qed.

(** The same two deploys under a cap of 1: one event, one worker. *)
Example check_deploy_timeouts_cap_one :
  let env := demo_env (capped_conf 1) (inr POWER_ON) in
  let w' := fst (_check_deploy_timeouts env two_waiting) in
  fail_events (trace w') = 1 /\ length (running w') = 1%nat.
Proof. vm_compute. repeat split. Qed.

(** ** do_sync_power_state: retries exhausted *)

(** C9. When the reading fails on a call that takes the count past
    [power_state_sync_max_retries], the node is escalated to maintenance:
    if [get_power_state] raised, the recorded [power_state] becomes
    [NOSTATE] (Python's [None]), whatever was recorded before; if it
    returned [ERROR], the recorded [power_state] becomes [ERROR]. In both
    cases [maintenance] is set and [maintenance_reason] and [last_error]
    hold the same message, on the task's node and in the stored row, and
    the incremented count is returned. *)
Theorem do_sync_power_state_retries_exhausted
    (env : Env) (task : Task) (count : Z) (w : World) (row : Node)
    (actual : states.power_state) :
  let n := attrs (task_node task) in
  db w !! uuid n = Some row ->
  (power_state n = NOSTATE -> power_validate (task_driver task) n = None) ->
  count + 1 > power_state_sync_max_retries (CONF env) ->
  ((exists e, power_get_power_state (task_driver task) n = inl e)
     /\ actual = NOSTATE)
  \/ (power_get_power_state (task_driver task) n = inr ERROR
      /\ actual = ERROR) ->
  exists w' task' row',
    do_sync_power_state env task count w = (w', inr (task', count + 1))
    /\ attrs (task_node task') = escalated n actual
    /\ db w' !! uuid n = Some row'
    /\ power_state row' = actual
    /\ maintenance row' = true
    /\ maintenance_reason row' = Some (max_retries_msg n actual)
    /\ last_error row' = Some (max_retries_msg n actual).
Proof.
  intros n Hdb Hval Hcount Hread. subst n.
  assert (Hgt : (count + 1 >? power_state_sync_max_retries (CONF env)) = true)
    by (apply Z.gtb_lt; lia).
  unfold do_sync_power_state.
  destruct (power_state_eqb (power_state (attrs (task_node task))) NOSTATE)
    eqn:E.
  - apply power_state_eqb_eq in E. specialize (Hval E).
    unfold try_except, call_driver, bind, tell, log. simpl. rewrite Hval.
    simpl.
    destruct Hread as [[[e He] ->] | [He ->]]; rewrite He;
      unfold sync_reading_failed; rewrite Hgt;
      unfold handle_sync_power_state_max_retries_exceeded, bind, save; simpl;
      rewrite Hdb; simpl; (do 3 eexists); (split; [reflexivity|]);
      simpl; rewrite lookup_insert_eq;
      (split; [reflexivity|]); (split; [reflexivity|]);
      repeat split; reflexivity.
  - unfold try_except, call_driver, bind, tell, log. simpl.
    destruct Hread as [[[e He] ->] | [He ->]]; rewrite He;
      unfold sync_reading_failed; rewrite Hgt;
      unfold handle_sync_power_state_max_retries_exceeded, bind, save; simpl;
      rewrite Hdb; simpl; (do 3 eexists); (split; [reflexivity|]);
      simpl; rewrite lookup_insert_eq;
      (split; [reflexivity|]); (split; [reflexivity|]);
      repeat split; reflexivity.
Qed.

Lemma do_sync_power_state_retries_exhausted_witness :
  let node := demo_node "n1" POWER_ON ACTIVE in
  let drv := fake_driver (inl (OtherException "BMC unreachable")) in
  let task := mkTask (mkObj node []) drv false None None in
  exists w' task',
    do_sync_power_state
      (demo_env demo_conf (inl (OtherException "BMC unreachable")))
      task 3 (demo_world node) = (w', inr (task', 4))
    /\ power_state (attrs (task_node task')) = NOSTATE
    /\ maintenance (attrs (task_node task')) = true
    /\ power_state <$> db w' !! "n1" = Some NOSTATE.
Proof.
  intros node drv task.
  destruct (do_sync_power_state_retries_exhausted
              (demo_env demo_conf (inl (OtherException "BMC unreachable")))
              task 3 (demo_world node) node NOSTATE
              eq_refl (fun _ => eq_refl) eq_refl
              (or_introl (conj (ex_intro _ _ eq_refl) eq_refl)))
    as (w' & task' & row' & Hrun & Ha & Hdb & Hps & _).
  exists w', task'. split; [exact Hrun |]. rewrite Ha.
  split; [reflexivity | split; [reflexivity |]].
  change (db w' !! "n1") with (db w' !! uuid (attrs (task_node task))).
  rewrite Hdb. simpl. by rewrite Hps.
Defined.

(** ** iRMC parse_driver_info *)

(** [MissingParameterValue] is raised exactly when a required key is absent
    or holds a false value. *)
Lemma parse_driver_info_missing (conf : Opts) (node : Node) :
  missing_required (driver_info node) = true <->
  exists msg, parse_driver_info conf node = inl (MissingParameterValue msg).
Proof.
  unfold parse_driver_info, missing_required, REQUIRED_PROPERTIES. simpl.
  destruct (not_get (driver_info node) "irmc_address") eqn:H1;
    destruct (not_get (driver_info node) "irmc_username") eqn:H2;
    destruct (not_get (driver_info node) "irmc_password") eqn:H3; simpl;
    try (split; [intros _; by eexists | done]).
  split; [done|]. intros [msg H].
  repeat case_match; congruence.
Qed.

Lemma effective_lookup (conf : Opts) (info : gmap string pyval)
    (param : string) :
  param ∈ OPTIONAL_PROPERTIES ->
  let req : gmap string pyval :=
    filter (fun kv => kv.1 ∈ REQUIRED_PROPERTIES) info in
  let opt : gmap string pyval :=
    list_to_map
      (List.map
         (fun param =>
            ("irmc_" +:+ param,
             default (conf_get conf param) (info !! ("irmc_" +:+ param))))
         OPTIONAL_PROPERTIES) in
  (opt ∪ req) !! ("irmc_" +:+ param) = Some (effective conf info param).
Proof.
  intros Hin req opt. apply lookup_union_Some_l. subst opt.
  unfold OPTIONAL_PROPERTIES in *. simpl.
  apply list_elem_of_In in Hin. simpl in Hin.
  destruct Hin as [<- | [<- | [<- | []]]]; simpl.
  - by rewrite lookup_insert_eq.
  - rewrite lookup_insert_ne by done. by rewrite lookup_insert_eq.
  - rewrite !lookup_insert_ne by done. by rewrite lookup_insert_eq.
Qed.

(** When the required keys are there and the effective [irmc_auth_method]
    is a string, [InvalidParameterValue] is raised exactly when one of the
    three checks rejects, and otherwise the mapping returned holds the
    required keys as the node has them and the optional keys with their
    effective values. *)
Lemma parse_driver_info_string_auth (conf : Opts) (node : Node)
    (s : string) :
  let info := driver_info node in
  missing_required info = false ->
  effective conf info "auth_method" = PStr s ->
  (invalid_values conf info = true <->
   exists msg, parse_driver_info conf node = inl (InvalidParameterValue msg))
  /\
  (invalid_values conf info = false ->
   exists d_info,
     parse_driver_info conf node = inr d_info
     /\ (forall k, k ∈ REQUIRED_PROPERTIES -> d_info !! k = info !! k)
     /\ (forall p, p ∈ OPTIONAL_PROPERTIES ->
                   d_info !! ("irmc_" +:+ p) = Some (effective conf info p))).
Proof.
  intros info Hreq Hauth. subst info.
  unfold missing_required in Hreq.
  apply orb_false_elim in Hreq as [Hreq H3].
  apply orb_false_elim in Hreq as [H1 H2].
  unfold parse_driver_info, invalid_values, REQUIRED_PROPERTIES.
  simpl List.filter. rewrite H1, H2, H3.
  cbv zeta.
  pose proof (effective_lookup conf (driver_info node) "auth_method"
                ltac:(set_solver)) as Ea.
  pose proof (effective_lookup conf (driver_info node) "port"
                ltac:(set_solver)) as Ep.
  pose proof (effective_lookup conf (driver_info node) "client_timeout"
                ltac:(set_solver)) as Et.
  cbv zeta in Ea, Ep, Et.
  change ("irmc_" +:+ "auth_method") with "irmc_auth_method" in Ea.
  change ("irmc_" +:+ "port") with "irmc_port" in Ep.
  change ("irmc_" +:+ "client_timeout") with "irmc_client_timeout" in Et.
  unfold REQUIRED_PROPERTIES in *.
  rewrite Ea, Ep, Et. simpl default. rewrite Hauth.
  destruct (negb (str_in (lower s) ["basic"; "digest"]));
    destruct (not_in_80_443 (effective conf (driver_info node) "port"));
    destruct (negb (isinstance_int
                      (effective conf (driver_info node) "client_timeout")));
    simpl; try (split; [split; [intros _; by eexists | done] | done]).
  split; [split; [done | intros [msg H]; discriminate H] |].
  intros _. eexists. split; [reflexivity|]. split.
  - intros k Hk. rewrite lookup_union_r.
    + apply option_eq. intros x. rewrite map_lookup_filter_Some. simpl.
      split; [by intros [? _] | by intros ?; split].
    + unfold OPTIONAL_PROPERTIES. simpl.
      apply list_elem_of_In in Hk. simpl in Hk.
      destruct Hk as [<- | [<- | [<- | []]]];
        by rewrite !lookup_insert_ne, lookup_empty by done.
  - intros p Hp. by apply effective_lookup.
Qed.

(** C10: an [irmc_auth_method] that is not a string. The three required
    keys are present, so nothing is missing; the value is neither 'basic'
    nor 'digest'; yet what is raised is [AttributeError] (from [.lower()]),
    not [InvalidParameterValue]. *)
Theorem parse_driver_info_auth_method_not_string :
  let info := <["irmc_auth_method" := PInt 1]> good_info in
  missing_required info = false
  /\ effective default_opts info "auth_method" = PInt 1
  /\ parse_driver_info default_opts (node_with_info info) = inl AttributeError.
Proof. vm_compute. repeat split. Qed.

(** The same node with a string there is handled as documented. *)
Example parse_driver_info_auth_method_string :
  (exists msg,
     parse_driver_info default_opts
       (node_with_info (<["irmc_auth_method" := PStr "ntlm"]> good_info))
     = inl (InvalidParameterValue msg))
  /\ (exists d_info,
        parse_driver_info default_opts
          (node_with_info (<["irmc_auth_method" := PStr "Digest"]> good_info))
        = inr d_info
        /\ d_info !! "irmc_port" = Some (PInt 443)
        /\ d_info !! "irmc_client_timeout" = Some (PInt 60)
        /\ d_info !! "irmc_address" = Some (PStr "10.0.0.1")).
Proof.
  split; [by eexists | eexists; split; [reflexivity | by vm_compute]].
Qed.

(** * Further properties *)

(** ** iRMC: what [parse_driver_info] hands back, and [update_ipmi_properties] *)

Ltac in_list :=
  apply list_elem_of_In; unfold REQUIRED_PROPERTIES, OPTIONAL_PROPERTIES;
  simpl; tauto.

Lemma parse_driver_info_inr_inv (conf : Opts) (node : Node)
    (d : gmap string pyval) :
  parse_driver_info conf node = inr d ->
  missing_required (driver_info node) = false
  /\ (exists s, effective conf (driver_info node) "auth_method" = PStr s)
  /\ invalid_values conf (driver_info node) = false.
Proof.
  intros H.
  assert (Hm : missing_required (driver_info node) = false).
  { destruct (missing_required (driver_info node)) eqn:E; [|done].
    apply (parse_driver_info_missing conf) in E as [msg E]. congruence. }
  assert (Ha : exists s,
             effective conf (driver_info node) "auth_method" = PStr s).
  { unfold missing_required in Hm.
    apply orb_false_elim in Hm as [Hm H3].
    apply orb_false_elim in Hm as [H1 H2].
    revert H. unfold parse_driver_info, REQUIRED_PROPERTIES.
    simpl List.filter. rewrite H1, H2, H3. cbv zeta.
    pose proof (effective_lookup conf (driver_info node) "auth_method"
                  ltac:(in_list)) as Ea.
    cbv zeta in Ea.
    change ("irmc_" +:+ "auth_method") with "irmc_auth_method" in Ea.
    unfold REQUIRED_PROPERTIES in *. rewrite Ea. simpl default.
    destruct (effective conf (driver_info node) "auth_method");
      try discriminate. by eexists. }
  split; [done | split; [done|]].
  destruct Ha as [s Ha].
  destruct (parse_driver_info_string_auth conf node s Hm Ha) as [Hinv _].
  destruct (invalid_values conf (driver_info node)); [|done].
  destruct Hinv as [Hinv _]. destruct (Hinv eq_refl) as [msg E]. congruence.
Qed.

Lemma parse_driver_info_required (conf : Opts) (node : Node)
    (d : gmap string pyval) :
  parse_driver_info conf node = inr d ->
  forall k, k ∈ REQUIRED_PROPERTIES ->
            exists v, driver_info node !! k = Some v /\ truthy v = true.
Proof.
  intros H k Hk.
  destruct (parse_driver_info_inr_inv conf node d H) as (Hm & _ & _).
  unfold missing_required in Hm.
  apply orb_false_elim in Hm as [Hm H3].
  apply orb_false_elim in Hm as [H1 H2].
  unfold REQUIRED_PROPERTIES in Hk.
  apply list_elem_of_In in Hk. simpl in Hk.
  unfold not_get in *.
  destruct Hk as [<- | [<- | [<- | []]]].
  - destruct (driver_info node !! "irmc_address") as [v|]; [|discriminate].
    exists v. split; [done | by apply negb_false_iff].
  - destruct (driver_info node !! "irmc_username") as [v|]; [|discriminate].
    exists v. split; [done | by apply negb_false_iff].
  - destruct (driver_info node !! "irmc_password") as [v|]; [|discriminate].
    exists v. split; [done | by apply negb_false_iff].
Qed.

Lemma parse_driver_info_keys (conf : Opts) (node : Node)
    (d : gmap string pyval) (k : string) (v : pyval) :
  parse_driver_info conf node = inr d ->
  d !! k = Some v ->
  k ∈ ["irmc_address"; "irmc_username"; "irmc_password";
       "irmc_port"; "irmc_auth_method"; "irmc_client_timeout"].
Proof.
  unfold parse_driver_info.
  destruct (List.filter _ _); [|discriminate]. cbv zeta.
  destruct (default PNone _); try discriminate.
  destruct (_ ++ _)%list; [|discriminate]. intros [= <-] Hv.
  apply lookup_union_Some_raw in Hv as [Hv | [_ Hv]].
  - unfold OPTIONAL_PROPERTIES in Hv. simpl in Hv.
    apply lookup_insert_Some in Hv as [[<- _] | [_ Hv]]; [in_list|].
    apply lookup_insert_Some in Hv as [[<- _] | [_ Hv]]; [in_list|].
    apply lookup_insert_Some in Hv as [[<- _] | [_ Hv]]; [in_list|].
    by rewrite lookup_empty in Hv.
  - apply map_lookup_filter_Some in Hv as [_ Hv]. simpl in Hv.
    apply list_elem_of_In in Hv. unfold REQUIRED_PROPERTIES in Hv.
    simpl in Hv. in_list.
Qed.

(** X1. Whatever [parse_driver_info] returns holds the six [irmc_] keys
    and nothing else from [driver_info]; its port is 80 or 443, its
    authentication method is a string that is 'basic' or 'digest' up to
    letter case, its timeout is an [int], and the three credentials are the
    node's own, none of them empty. *)
Theorem parse_driver_info_result (conf : Opts) (node : Node)
    (d : gmap string pyval) :
  parse_driver_info conf node = inr d ->
  (forall k, is_Some (d !! k) <->
             k ∈ ["irmc_address"; "irmc_username"; "irmc_password";
                  "irmc_port"; "irmc_auth_method"; "irmc_client_timeout"])
  /\ (d !! "irmc_port" = Some (PInt 80) \/ d !! "irmc_port" = Some (PInt 443))
  /\ (exists s, d !! "irmc_auth_method" = Some (PStr s)
                /\ (lower s = "basic" \/ lower s = "digest"))
  /\ (exists v, d !! "irmc_client_timeout" = Some v
                /\ isinstance_int v = true)
  /\ (forall k, k ∈ REQUIRED_PROPERTIES ->
                exists v, d !! k = Some v /\ driver_info node !! k = Some v
                          /\ truthy v = true).
Proof.
  intros H.
  destruct (parse_driver_info_inr_inv conf node d H) as (Hm & [s Ha] & Hinv).
  destruct (parse_driver_info_string_auth conf node s Hm Ha) as [_ Hok].
  destruct (Hok Hinv) as (d' & Hd' & Hreq & Hopt).
  assert (d' = d) by congruence. subst d'.
  pose proof (Hopt "port" ltac:(in_list)) as Hp.
  pose proof (Hopt "auth_method" ltac:(in_list)) as Hau.
  pose proof (Hopt "client_timeout" ltac:(in_list)) as Ht.
  change ("irmc_" +:+ "port") with "irmc_port" in Hp.
  change ("irmc_" +:+ "auth_method") with "irmc_auth_method" in Hau.
  change ("irmc_" +:+ "client_timeout") with "irmc_client_timeout" in Ht.
  unfold invalid_values in Hinv. rewrite Ha in Hinv.
  apply orb_false_elim in Hinv as [Hinv Hti].
  apply orb_false_elim in Hinv as [Hau' Hpo].
  assert (Hreq' : forall k, k ∈ REQUIRED_PROPERTIES ->
            exists v, d !! k = Some v /\ driver_info node !! k = Some v
                      /\ truthy v = true).
  { intros k Hk. rewrite (Hreq k Hk).
    destruct (parse_driver_info_required conf node d H k Hk) as (v & E & T).
    by exists v. }
  split; [|split; [|split; [|split]]].
  - intros k. split.
    + intros [v Hv]. exact (parse_driver_info_keys conf node d k v H Hv).
    + intros Hk. apply list_elem_of_In in Hk. simpl in Hk.
      destruct Hk as [<- | [<- | [<- | [<- | [<- | [<- | []]]]]]].
      * destruct (Hreq' "irmc_address" ltac:(in_list)) as (v & -> & _).
        by eexists.
      * destruct (Hreq' "irmc_username" ltac:(in_list)) as (v & -> & _).
        by eexists.
      * destruct (Hreq' "irmc_password" ltac:(in_list)) as (v & -> & _).
        by eexists.
      * rewrite Hp. by eexists.
      * rewrite Hau. by eexists.
      * rewrite Ht. by eexists.
  - rewrite Hp. unfold not_in_80_443 in Hpo.
    destruct (effective conf (driver_info node) "port"); try discriminate.
    apply negb_false_iff, orb_true_iff in Hpo as [E | E];
      apply Z.eqb_eq in E; subst; auto.
  - exists s. rewrite Hau, Ha. split; [done|].
    apply negb_false_iff in Hau'. unfold str_in in Hau'. simpl in Hau'.
    rewrite orb_false_r in Hau'.
    apply orb_true_iff in Hau' as [E | E]; apply String.eqb_eq in E; auto.
  - eexists. split; [exact Ht|]. by apply negb_false_iff.
  - exact Hreq'.
Qed.

Lemma parse_driver_info_result_witness :
  exists d,
    parse_driver_info default_opts (node_with_info digest_info) = inr d
    /\ d !! "ipmi_address" = None
    /\ d !! "irmc_port" = Some (PInt 443).
Proof.
  destruct (parse_driver_info default_opts (node_with_info digest_info))
    as [e|d] eqn:E; [vm_compute in E; discriminate|].
  destruct (parse_driver_info_result default_opts _ d E)
    as (Hdom & _ & _ & _ & _).
  exists d. split; [reflexivity|]. split.
  - destruct (d !! "ipmi_address") eqn:Hk; [|done].
    assert (Hs : is_Some (d !! "ipmi_address")) by (by rewrite Hk).
    apply Hdom, list_elem_of_In in Hs. simpl in Hs.
    repeat (destruct Hs as [Hs | Hs]; [discriminate Hs|]). destruct Hs.
  - vm_compute in E. injection E as <-. reflexivity.
Defined.

Lemma update_ipmi_properties_info (task : Task) :
  let info := driver_info (attrs (task_node task)) in
  driver_info (attrs (task_node (update_ipmi_properties task)))
  = <["ipmi_password" := default PNone (info !! "irmc_password")]>
      (<["ipmi_username" := default PNone (info !! "irmc_username")]>
         (<["ipmi_address" := default PNone (info !! "irmc_address")]> info)).
Proof.
  intros info. unfold update_ipmi_properties. simpl. fold info.
  by rewrite !lookup_insert_ne by done.
Qed.

Lemma ipmi_insert_not_get (info : gmap string pyval) (k k' : string)
    (v : pyval) :
  k <> k' -> not_get (<[k := v]> info) k' = not_get info k'.
Proof. intros Hne. unfold not_get. by rewrite lookup_insert_ne. Qed.

Lemma ipmi_insert_filter_required (info : gmap string pyval) (k : string)
    (v : pyval) :
  k ∉ REQUIRED_PROPERTIES ->
  filter (fun kv : string * pyval => kv.1 ∈ REQUIRED_PROPERTIES)
    (<[k := v]> info)
  = filter (fun kv : string * pyval => kv.1 ∈ REQUIRED_PROPERTIES) info.
Proof.
  intros Hk. apply map_eq. intros i. apply option_eq. intros x.
  rewrite !map_lookup_filter_Some. simpl.
  destruct (decide (k = i)) as [<- | Hne].
  - split; intros [_ ?]; done.
  - by rewrite lookup_insert_ne.
Qed.

(** X2. [update_ipmi_properties] does not change what [parse_driver_info]
    makes of the node: the same mapping, or the same exception. *)
Theorem parse_driver_info_after_update_ipmi_properties (conf : Opts)
    (task : Task) :
  parse_driver_info conf (attrs (task_node (update_ipmi_properties task)))
  = parse_driver_info conf (attrs (task_node task)).
Proof.
  unfold parse_driver_info.
  rewrite update_ipmi_properties_info. cbv zeta.
  set (info := driver_info (attrs (task_node task))).
  unfold REQUIRED_PROPERTIES at 1 3. simpl List.filter.
  rewrite !ipmi_insert_not_get by done.
  rewrite !ipmi_insert_filter_required
    by (unfold REQUIRED_PROPERTIES; intros H;
        apply list_elem_of_In in H; simpl in H;
        repeat (destruct H as [H | H]; [discriminate H|]); destruct H).
  unfold OPTIONAL_PROPERTIES. simpl List.map.
  by rewrite !lookup_insert_ne by done.
Qed.

(** X3. After [update_ipmi_properties] the node's [driver_info] holds the
    iRMC address, user name and password under the [ipmi_] keys ([None]
    for one the node lacks) and is otherwise as it was; on a node
    [parse_driver_info] accepts, the three values are present and not
    empty. Running it a second time changes nothing. *)
Theorem update_ipmi_properties_driver_info (task : Task) :
  let info := driver_info (attrs (task_node task)) in
  let info' := driver_info (attrs (task_node (update_ipmi_properties task))) in
  info' !! "ipmi_address" = Some (default PNone (info !! "irmc_address"))
  /\ info' !! "ipmi_username" = Some (default PNone (info !! "irmc_username"))
  /\ info' !! "ipmi_password" = Some (default PNone (info !! "irmc_password"))
  /\ (forall k, k ∉ ["ipmi_address"; "ipmi_username"; "ipmi_password"] ->
                info' !! k = info !! k)
  /\ driver_info
       (attrs (task_node (update_ipmi_properties
                            (update_ipmi_properties task)))) = info'
  /\ (forall conf d,
        parse_driver_info conf (attrs (task_node task)) = inr d ->
        exists a u p,
          info' !! "ipmi_address" = Some a /\ truthy a = true
          /\ info' !! "ipmi_username" = Some u /\ truthy u = true
          /\ info' !! "ipmi_password" = Some p /\ truthy p = true).
Proof.
  intros info info'. subst info'.
  rewrite !update_ipmi_properties_info. cbv zeta. fold info.
  set (a := default PNone (info !! "irmc_address")).
  set (u := default PNone (info !! "irmc_username")).
  set (p := default PNone (info !! "irmc_password")).
  assert (H1 : <["ipmi_password" := p]>
                 (<["ipmi_username" := u]> (<["ipmi_address" := a]> info))
               !! "ipmi_address" = Some a).
  { rewrite !lookup_insert_ne by done. by rewrite lookup_insert_eq. }
  assert (H2 : <["ipmi_password" := p]>
                 (<["ipmi_username" := u]> (<["ipmi_address" := a]> info))
               !! "ipmi_username" = Some u).
  { rewrite lookup_insert_ne by done. by rewrite lookup_insert_eq. }
  split; [exact H1|]. split; [exact H2|].
  split; [by rewrite lookup_insert_eq|].
  split; [|split].
  - intros k Hk. rewrite !lookup_insert_ne; [done | | |];
      intros <-; apply Hk, list_elem_of_In; simpl; tauto.
  - rewrite !(lookup_insert_ne _ _ "irmc_address") by done.
    rewrite !(lookup_insert_ne _ _ "irmc_username") by done.
    rewrite !(lookup_insert_ne _ _ "irmc_password") by done.
    fold a u p.
    apply map_eq. intros k.
    destruct (decide (k = "ipmi_password")) as [-> | N1];
      [by rewrite !lookup_insert_eq|].
    rewrite !(lookup_insert_ne _ "ipmi_password") by done.
    destruct (decide (k = "ipmi_username")) as [-> | N2];
      [by rewrite !lookup_insert_eq|].
    rewrite !(lookup_insert_ne _ "ipmi_username") by done.
    destruct (decide (k = "ipmi_address")) as [-> | N3];
      [by rewrite !lookup_insert_eq|].
    by rewrite !lookup_insert_ne by done.
  - intros conf d Hd.
    pose proof (parse_driver_info_required conf _ d Hd) as Hr.
    destruct (Hr "irmc_address" ltac:(in_list)) as (va & Ha & Hta).
    destruct (Hr "irmc_username" ltac:(in_list)) as (vu & Hu & Htu).
    destruct (Hr "irmc_password" ltac:(in_list)) as (vp & Hp & Htp).
    fold info in Ha, Hu, Hp.
    exists va, vu, vp. rewrite H1, H2, lookup_insert_eq.
    subst a u p. rewrite Ha, Hu, Hp. by repeat split.
Qed.

(** X4. [get_irmc_client] fails with [parse_driver_info]'s exception,
    whatever [scci.get_client] would do; otherwise it never misses a key
    and calls [scci.get_client] with the node's own credentials, a port
    that is 80 or 443, an authentication method that is 'basic' or
    'digest' up to letter case, and an [int] timeout. *)
Theorem get_irmc_client_spec {C} (conf : Opts)
    (get_client : pyval -> pyval -> pyval -> pyval -> pyval -> pyval
                  -> exn + C)
    (node : Node) :
  match parse_driver_info conf node with
  | inl e => get_irmc_client conf get_client node = inl e
  | inr _ =>
      exists a u p port s timeout,
        get_irmc_client conf get_client node
          = get_client a u p (PInt port) (PStr s) timeout
        /\ driver_info node !! "irmc_address" = Some a
        /\ driver_info node !! "irmc_username" = Some u
        /\ driver_info node !! "irmc_password" = Some p
        /\ (port = 80 \/ port = 443)
        /\ (lower s = "basic" \/ lower s = "digest")
        /\ isinstance_int timeout = true
  end.
Proof.
  unfold get_irmc_client.
  destruct (parse_driver_info conf node) as [e|d] eqn:H; [done|].
  destruct (parse_driver_info_inr_inv conf node d H) as (Hm & [s Ha] & Hinv).
  destruct (parse_driver_info_string_auth conf node s Hm Ha) as [_ Hok].
  destruct (Hok Hinv) as (d' & Hd' & Hreq & Hopt).
  assert (d' = d) by congruence. subst d'.
  pose proof (Hopt "port" ltac:(in_list)) as Hp.
  pose proof (Hopt "auth_method" ltac:(in_list)) as Hau.
  pose proof (Hopt "client_timeout" ltac:(in_list)) as Ht.
  change ("irmc_" +:+ "port") with "irmc_port" in Hp.
  change ("irmc_" +:+ "auth_method") with "irmc_auth_method" in Hau.
  change ("irmc_" +:+ "client_timeout") with "irmc_client_timeout" in Ht.
  pose proof (parse_driver_info_required conf node d H) as Hr.
  destruct (Hr "irmc_address" ltac:(in_list)) as (a & Ea & _).
  destruct (Hr "irmc_username" ltac:(in_list)) as (u & Eu & _).
  destruct (Hr "irmc_password" ltac:(in_list)) as (p & Ep & _).
  unfold getitem.
  rewrite (Hreq "irmc_address" ltac:(in_list)), Ea.
  rewrite (Hreq "irmc_username" ltac:(in_list)), Eu.
  rewrite (Hreq "irmc_password" ltac:(in_list)), Ep.
  rewrite Hp, Hau, Ht, Ha.
  unfold invalid_values in Hinv. rewrite Ha in Hinv.
  apply orb_false_elim in Hinv as [Hinv Hti].
  apply orb_false_elim in Hinv as [Hau' Hpo].
  unfold not_in_80_443 in Hpo.
  destruct (effective conf (driver_info node) "port") as [| |port|];
    try discriminate.
  exists a, u, p, port, s, (effective conf (driver_info node) "client_timeout").
  split; [reflexivity|]. repeat split; try done.
  - apply negb_false_iff, orb_true_iff in Hpo as [E | E];
      apply Z.eqb_eq in E; auto.
  - apply negb_false_iff in Hau'. unfold str_in in Hau'. simpl in Hau'.
    rewrite orb_false_r in Hau'.
    apply orb_true_iff in Hau' as [E | E]; apply String.eqb_eq in E; auto.
  - by apply negb_false_iff.
Qed.

(** ** Sensor types and vendor method listings *)

Lemma str_in_map_lower (x : string) (l : list string) :
  str_in x (List.map lower l) = true <-> exists t, t ∈ l /\ lower t = x.
Proof.
  unfold str_in. rewrite existsb_exists. split.
  - intros (y & Hy & E). apply in_map_iff in Hy as (t & <- & Ht).
    apply String.eqb_eq in E. exists t. split; [by apply list_elem_of_In | done].
  - intros (t & Ht & <-). exists (lower t). split.
    + apply in_map. by apply list_elem_of_In.
    + apply String.eqb_refl.
Qed.

(** X5. [_filter_out_unsupported_types] keeps a reading exactly when some
    configured type is 'all', or is the reading's sensor type, both up to
    letter case; what it keeps it keeps unchanged, so the result is part
    of the input, and filtering twice is filtering once. *)
Theorem filter_out_unsupported_types_spec {V}
    (send_sensor_data_types : list string) (sensors_data : gmap string V) :
  let kept := _filter_out_unsupported_types send_sensor_data_types
                sensors_data in
  (forall sensor_type reading,
     kept !! sensor_type = Some reading <->
     sensors_data !! sensor_type = Some reading
     /\ exists t, t ∈ send_sensor_data_types
                  /\ (lower t = "all" \/ lower t = lower sensor_type))
  /\ kept ⊆ sensors_data
  /\ _filter_out_unsupported_types send_sensor_data_types kept = kept.
Proof.
  intros kept.
  assert (Hchar : forall k v,
            kept !! k = Some v <->
            sensors_data !! k = Some v
            /\ exists t, t ∈ send_sensor_data_types
                         /\ (lower t = "all" \/ lower t = lower k)).
  { intros k v. subst kept. unfold _filter_out_unsupported_types.
    destruct (str_in "all" (List.map lower send_sensor_data_types)) eqn:Hall.
    - apply str_in_map_lower in Hall as (t & Ht & E).
      split; [intros H; split; [done | exists t; auto] | by intros [H _]].
    - rewrite map_lookup_filter_Some. simpl. rewrite str_in_map_lower.
      split; intros [H (t & Ht & E)]; (split; [done|]); exists t.
      + auto.
      + split; [done|]. destruct E as [E | E]; [|done].
        assert (str_in "all" (List.map lower send_sensor_data_types) = true)
          by (apply str_in_map_lower; eauto).
        congruence. }
  split; [exact Hchar|]. split.
  - apply map_subseteq_spec. intros k v H. by apply Hchar in H as [H _].
  - subst kept. unfold _filter_out_unsupported_types.
    destruct (str_in "all" (List.map lower send_sensor_data_types));
      [done|].
    apply map_eq. intros k. apply option_eq. intros v.
    rewrite !map_lookup_filter_Some. simpl. tauto.
Qed.

(** X6. [get_vendor_passthru_metadata] lists the same methods as the route
    table; no listed method has a ['func'] entry, and every other entry of
    a route is listed as it is. *)
Theorem get_vendor_passthru_metadata_spec {V}
    (route_dict : gmap string (gmap string V)) :
  let d := get_vendor_passthru_metadata route_dict in
  (forall method, is_Some (d !! method) <-> is_Some (route_dict !! method))
  /\ (forall method metadata,
        d !! method = Some metadata -> metadata !! "func" = None)
  /\ (forall method route k,
        route_dict !! method = Some route -> k <> "func" ->
        exists metadata,
          d !! method = Some metadata /\ metadata !! k = route !! k).
Proof.
  intros d. subst d. unfold get_vendor_passthru_metadata.
  split; [|split].
  - intros method. rewrite lookup_fmap. by rewrite fmap_is_Some.
  - intros method metadata. rewrite lookup_fmap.
    destruct (route_dict !! method) as [route|]; [|done]. simpl.
    intros [= <-]. apply map_lookup_filter_None. right. intros x _ H.
    by apply H.
  - intros method route k Hr Hk. rewrite lookup_fmap, Hr. simpl.
    eexists. split; [reflexivity|].
    apply option_eq. intros x. rewrite map_lookup_filter_Some. simpl.
    tauto.
Qed.

Lemma route_metadata (r : Route) :
  filter (fun kv : string * RouteValue => kv.1 <> "func") (route_dict_of r)
  = {["http_methods" := RV_http_methods (http_methods r);
      "async" := RV_async (async r)]}.
Proof.
  apply map_eq. intros k. apply option_eq. intros x.
  rewrite map_lookup_filter_Some. unfold route_dict_of. simpl.
  destruct (decide (k = "func")) as [-> | Hf].
  - split; [by intros [_ ?]|].
    rewrite lookup_insert_ne by done.
    by rewrite lookup_singleton_ne by done.
  - rewrite (lookup_insert_ne _ "func") by done.
    change (<["http_methods" := RV_http_methods (http_methods r)]>
              (<["async" := RV_async (async r)]> ∅))
      with (<["http_methods" := RV_http_methods (http_methods r)]>
              ({["async" := RV_async (async r)]} : gmap string RouteValue)).
    tauto.
Qed.

(** X7. [get_node_vendor_passthru_methods] takes a shared lock: it answers
    also for a node another conductor has reserved, and leaves the world
    as it found it. Each method of the route table is listed with its
    [http_methods] and [async] entries only; a driver without a vendor
    interface is refused with [UnsupportedDriverExtension]. *)
Theorem get_node_vendor_passthru_methods_spec
    (env : Env) (w : World) (node_id : string) (row : Node) (d : Driver) :
  db w !! node_id = Some row ->
  driver_factory env (driver row) = Some d ->
  match vendor d with
  | None =>
      get_node_vendor_passthru_methods env node_id w
      = (w, inl (UnsupportedDriverExtension "vendor interface"))
  | Some vendor_iface =>
      exists listing,
        get_node_vendor_passthru_methods env node_id w = (w, inr listing)
        /\ forall method,
             listing !! method =
               (fun r : Route =>
                  {["http_methods" := RV_http_methods (http_methods r);
                    "async" := RV_async (async r)]})
               <$> vendor_routes vendor_iface !! method
  end.
Proof.
  intros Hdb Hdrv.
  unfold get_node_vendor_passthru_methods, with_task, acquire.
  rewrite Hdb. simpl. rewrite Hdrv. simpl.
  destruct (vendor d) as [v|]; simpl.
  - eexists. split; [reflexivity|]. intros method.
    unfold get_vendor_passthru_metadata. rewrite !lookup_fmap.
    destruct (vendor_routes v !! method) as [r|]; simpl; [|done].
    by rewrite route_metadata.
  - reflexivity.
Qed.

Lemma get_node_vendor_passthru_methods_spec_witness :
  let locked :=
    with_reservation (Some "conductor-2") (demo_node "n1" POWER_ON ACTIVE) in
  exists listing,
    get_node_vendor_passthru_methods (demo_env demo_conf (inr POWER_ON)) "n1"
      (demo_world locked) = (demo_world locked, inr listing)
    /\ listing !! "flash" =
         Some {["http_methods" := RV_http_methods ["POST"; "PUT"];
                "async" := RV_async true]}.
Proof.
  intros locked.
  pose proof (get_node_vendor_passthru_methods_spec
                (demo_env demo_conf (inr POWER_ON)) (demo_world locked)
                "n1" locked (fake_driver (inr POWER_ON)) eq_refl eq_refl)
    as H.
  simpl in H. destruct H as (listing & Hrun & Hl).
  exists listing. split; [exact Hrun|]. rewrite Hl. reflexivity.
Defined.

(** ** The worker pool *)

(** X8. [_spawn_worker] refuses a job exactly when the pool is full, and
    then changes nothing; otherwise the job joins the pool. Either way the
    pool holds no more than [workers_pool_size] jobs afterwards. *)
Theorem spawn_worker_pool_bound (env : Env) (j : Job) (w : World) :
  (length (running w) <= workers_pool_size (CONF env))%nat ->
  (length (running w) = workers_pool_size (CONF env) ->
   _spawn_worker env j w = (w, inl NoFreeConductorWorker))
  /\ (length (running w) <> workers_pool_size (CONF env) ->
      exists w',
        _spawn_worker env j w = (w', inr tt)
        /\ running w' = (running w ++ [j])%list
        /\ db w' = db w)
  /\ (length (running (fst (_spawn_worker env j w)))
      <= workers_pool_size (CONF env))%nat.
Proof.
  intros Hb. unfold _spawn_worker, free.
  destruct (workers_pool_size (CONF env) - length (running w))%nat eqn:E.
  - split; [done|]. split; [intros; lia | simpl; lia].
  - split; [intros; lia|]. split.
    + intros _. eexists. by repeat split.
    + simpl. rewrite length_app. simpl. lia.
Qed.

Lemma spawn_worker_pool_bound_witness :
  let env := demo_env (mkConf 1800 false 3 8 1) (inr POWER_ON) in
  let busy :=
    mkWorld ∅ [J_do_node_deploy "n0"] [] in
  _spawn_worker env (J_do_node_deploy "n1") busy
  = (busy, inl NoFreeConductorWorker).
Proof.
  intros env busy.
  destruct (spawn_worker_pool_bound env (J_do_node_deploy "n1") busy)
    as [H _]; [simpl; lia|].
  apply H. reflexivity.
Defined.

(** ** Handlers: what a refused request leaves behind *)

(** X9. When the power interface does not validate,
    [change_node_power_state] raises the driver's exception before it
    writes anything: the node table and the pool are as before, and the
    reservation is released. *)
Theorem change_node_power_state_validation_fails
    (env : Env) (w : World) (node_id : string)
    (new_state : states.power_state) (row : Node) (d : Driver) (e : exn) :
  db w !! node_id = Some row ->
  uuid row = node_id ->
  reservation row = None ->
  driver_factory env (driver row) = Some d ->
  power_validate d (with_reservation (Some (host env)) row) = Some e ->
  exists w',
    change_node_power_state env node_id new_state w = (w', inl e)
    /\ db w' = db w
    /\ running w' = running w
    /\ trace w' =
         (trace w ++ [E_reserve node_id;
                      E_driver power_validate_call node_id;
                      E_release node_id])%list.
Proof.
  intros Hdb Hid Hres Hdrv Hval. subst node_id.
  unfold change_node_power_state, with_task, acquire.
  rewrite Hdb. simpl. rewrite Hres, Hdrv. simpl.
  unfold call_driver, bind, tell, log. simpl. rewrite Hval. simpl.
  unfold release_resources. simpl. rewrite lookup_insert_eq. simpl.
  rewrite bool_decide_eq_true_2 by reflexivity. simpl.
  eexists. split; [reflexivity|]. simpl.
  rewrite reserve_release_db, <- !app_assoc by done. by repeat split.
Qed.

Lemma change_node_power_state_validation_fails_witness :
  exists w',
    change_node_power_state unconfigured_env "n1" POWER_ON
      (demo_world (demo_node "n1" POWER_OFF AVAILABLE))
    = (w', inl (MissingParameterValue "ipmi_address"))
    /\ db w' = db (demo_world (demo_node "n1" POWER_OFF AVAILABLE)).
Proof.
  destruct (change_node_power_state_validation_fails unconfigured_env
              (demo_world (demo_node "n1" POWER_OFF AVAILABLE)) "n1" POWER_ON
              (demo_node "n1" POWER_OFF AVAILABLE) unconfigured_driver
              (MissingParameterValue "ipmi_address")
              eq_refl eq_refl eq_refl eq_refl eq_refl)
    as (w' & Hrun & Hdb & _).
  exists w'. split; [exact Hrun | exact Hdb].
Defined.

(** X10. [do_node_deploy] validates the power interface, then the deploy
    interface, and stops at the first that fails: a parameter error comes
    back as [InstanceDeployFailure] quoting it, any other exception as it
    is. No FSM event is dispatched, nothing is saved (also on a rebuild),
    and the reservation is released. *)
Theorem do_node_deploy_validation_fails
    (env : Env) (w : World) (node_id : string) (rebuild : bool)
    (row : Node) (d : Driver) (e : exn) :
  db w !! node_id = Some row ->
  uuid row = node_id ->
  reservation row = None ->
  driver_factory env (driver row) = Some d ->
  maintenance row = false ->
  let locked := with_reservation (Some (host env)) row in
  (power_validate d locked = Some e ->
   exists w',
     do_node_deploy env node_id rebuild w
       = (w', inl (deploy_validation_error e))
     /\ db w' = db w
     /\ trace w' =
          (trace w ++ [E_reserve node_id;
                       E_driver power_validate_call node_id;
                       E_release node_id])%list)
  /\
  (power_validate d locked = None -> deploy_validate d locked = Some e ->
   exists w',
     do_node_deploy env node_id rebuild w
       = (w', inl (deploy_validation_error e))
     /\ db w' = db w
     /\ trace w' =
          (trace w ++ [E_reserve node_id;
                       E_driver power_validate_call node_id;
                       E_driver deploy_validate_call node_id;
                       E_release node_id])%list).
Proof.
  intros Hdb Hid Hres Hdrv Hm locked. subst locked node_id.
  split.
  - intros Hpv. unfold do_node_deploy, with_task, acquire.
    rewrite Hdb. simpl. rewrite Hres, Hdrv. simpl. rewrite Hm. simpl.
    unfold try_except, call_driver, bind, tell, log. simpl.
    rewrite Hpv. simpl. unfold deploy_validation_error.
    destruct (is_parameter_error e); simpl;
      unfold release_resources; simpl; rewrite lookup_insert_eq; simpl;
      rewrite bool_decide_eq_true_2 by reflexivity; simpl;
      (eexists; split; [reflexivity|]); simpl;
      rewrite reserve_release_db, <- !app_assoc by done; by repeat split.
  - intros Hpv Hdv. unfold do_node_deploy, with_task, acquire.
    rewrite Hdb. simpl. rewrite Hres, Hdrv. simpl. rewrite Hm. simpl.
    unfold try_except, call_driver, bind, tell, log. simpl.
    rewrite Hpv. simpl. rewrite Hdv. simpl. unfold deploy_validation_error.
    destruct (is_parameter_error e); simpl;
      unfold release_resources; simpl; rewrite lookup_insert_eq; simpl;
      rewrite bool_decide_eq_true_2 by reflexivity; simpl;
      (eexists; split; [reflexivity|]); simpl;
      rewrite reserve_release_db, <- !app_assoc by done; by repeat split.
Qed.

Lemma do_node_deploy_validation_fails_witness :
  exists w' msg,
    do_node_deploy unconfigured_env "n1" true
      (demo_world (demo_node "n1" POWER_OFF ACTIVE))
    = (w', inl (InstanceDeployFailure msg))
    /\ mentions msg "ipmi_address" = true
    /\ db w' = db (demo_world (demo_node "n1" POWER_OFF ACTIVE)).
Proof.
  destruct (do_node_deploy_validation_fails unconfigured_env
              (demo_world (demo_node "n1" POWER_OFF ACTIVE)) "n1" true
              (demo_node "n1" POWER_OFF ACTIVE) unconfigured_driver
              (MissingParameterValue "ipmi_address")
              eq_refl eq_refl eq_refl eq_refl eq_refl)
    as [H _].
  destruct (H eq_refl) as (w' & Hrun & Hdb & _).
  exists w'. eexists. split; [exact Hrun|]. split; [reflexivity | exact Hdb].
Defined.

(** ** do_node_deploy: a request the state machine or the pool refuses *)

(** X11. When the state machine does not accept the event,
    [do_node_deploy] fails with [InstanceDeployFailure] and releases the
    reservation. A plain deploy leaves the node table as it was; a rebuild
    has by then saved the node without its cached 'kernel' and 'ramdisk',
    and that stays. *)
Theorem do_node_deploy_invalid_state
    (env : Env) (w : World) (node_id : string) (rebuild : bool)
    (row : Node) (d : Driver) :
  db w !! node_id = Some row ->
  uuid row = node_id ->
  reservation row = None ->
  driver_factory env (driver row) = Some d ->
  maintenance row = false ->
  power_validate d (with_reservation (Some (host env)) row) = None ->
  deploy_validate d (with_reservation (Some (host env)) row) = None ->
  fsm env (provision_state row) (if rebuild then "rebuild" else "deploy")
    = None ->
  exists w' msg,
    do_node_deploy env node_id rebuild w
      = (w', inl (InstanceDeployFailure msg))
    /\ db w' = <[node_id := after_purge rebuild row]> (db w)
    /\ running w' = running w.
Proof.
  intros Hdb Hid Hres Hdrv Hm Hpv Hdv Hfsm. subst node_id.
  unfold do_node_deploy, with_task, acquire.
  rewrite Hdb. simpl. rewrite Hres, Hdrv. simpl. rewrite Hm. simpl.
  unfold try_except, call_driver, bind, tell, log. simpl.
  rewrite Hpv. simpl. rewrite Hdv. simpl.
  destruct rebuild; simpl.
  - unfold save. simpl. rewrite lookup_insert_eq. simpl.
    unfold process_event, bind, tell, log. simpl. rewrite Hfsm. simpl.
    unfold release_resources. simpl. rewrite lookup_insert_eq. simpl.
    rewrite bool_decide_eq_true_2 by reflexivity. simpl.
    do 2 eexists. split; [reflexivity|]. simpl.
    rewrite !insert_insert_eq. split; [|done].
    f_equal. unfold apply_changes, after_purge, purged. simpl.
    by rewrite Hres.
  - unfold process_event, bind, tell, log. simpl. rewrite Hfsm. simpl.
    unfold release_resources. simpl. rewrite lookup_insert_eq. simpl.
    rewrite bool_decide_eq_true_2 by reflexivity. simpl.
    do 2 eexists. split; [reflexivity|]. simpl.
    rewrite insert_insert_eq, with_reservation_None_id by done. done.
Qed.

Lemma do_node_deploy_invalid_state_witness :
  exists w' msg,
    do_node_deploy (demo_env demo_conf (inr POWER_ON)) "n1" true
      (demo_world (demo_node "n1" POWER_ON DEPLOYWAIT))
    = (w', inl (InstanceDeployFailure msg))
    /\ instance_info <$> db w' !! "n1" = Some {["image" := "i-1"]}.
Proof.
  destruct (do_node_deploy_invalid_state (demo_env demo_conf (inr POWER_ON))
              (demo_world (demo_node "n1" POWER_ON DEPLOYWAIT)) "n1" true
              (demo_node "n1" POWER_ON DEPLOYWAIT)
              (fake_driver (inr POWER_ON))
              eq_refl eq_refl eq_refl eq_refl eq_refl eq_refl eq_refl eq_refl)
    as (w' & msg & Hrun & Hdb & _).
  exists w', msg. split; [exact Hrun|]. rewrite Hdb.
  rewrite lookup_insert_eq. reflexivity.
Defined.

(** X12. When the request is accepted but the worker pool is full,
    [do_node_deploy] fails with [NoFreeConductorWorker]: the node's
    provision state and target are put back to what they were,
    [last_error] carries the no-free-workers message, the reservation is
    released and no job is left with the pool. What a rebuild removed from
    [instance_info] is not put back. *)
Theorem do_node_deploy_no_free_worker
    (env : Env) (w : World) (node_id : string) (rebuild : bool)
    (row : Node) (d : Driver) (st : states.provision_state)
    (tgt : option states.provision_state) :
  db w !! node_id = Some row ->
  uuid row = node_id ->
  reservation row = None ->
  driver_factory env (driver row) = Some d ->
  maintenance row = false ->
  power_validate d (with_reservation (Some (host env)) row) = None ->
  deploy_validate d (with_reservation (Some (host env)) row) = None ->
  fsm env (provision_state row) (if rebuild then "rebuild" else "deploy")
    = Some (st, tgt) ->
  (workers_pool_size (CONF env) <= length (running w))%nat ->
  exists w' row',
    do_node_deploy env node_id rebuild w = (w', inl NoFreeConductorWorker)
    /\ db w' = <[node_id := row']> (db w)
    /\ running w' = running w
    /\ provision_state row' = provision_state row
    /\ target_provision_state row' = target_provision_state row
    /\ last_error row' = Some no_free_workers_msg
    /\ reservation row' = None
    /\ instance_info row' = instance_info (after_purge rebuild row).
Proof.
  intros Hdb Hid Hres Hdrv Hm Hpv Hdv Hfsm Hfull. subst node_id.
  assert (Hfree : forall tr db', free env (mkWorld db' (running w) tr) = O).
  { intros. unfold free. simpl. lia. }
  unfold do_node_deploy, with_task, acquire.
  rewrite Hdb. simpl. rewrite Hres, Hdrv. simpl. rewrite Hm. simpl.
  unfold try_except, call_driver, bind, tell, log. simpl.
  rewrite Hpv. simpl. rewrite Hdv. simpl.
  destruct rebuild; simpl.
  - unfold save. simpl. rewrite lookup_insert_eq. simpl.
    unfold process_event, bind, tell, log. simpl. rewrite Hfsm. simpl.
    unfold save. simpl. rewrite lookup_insert_eq. simpl.
    unfold _spawn_worker. rewrite Hfree. simpl.
    unfold save. simpl. rewrite lookup_insert_eq. simpl.
    unfold release_resources. simpl. rewrite lookup_insert_eq. simpl.
    rewrite bool_decide_eq_true_2 by reflexivity. simpl.
    do 2 eexists. split; [reflexivity|]. simpl.
    rewrite !insert_insert_eq. by repeat split.
  - unfold process_event, bind, tell, log. simpl. rewrite Hfsm. simpl.
    unfold save. simpl. rewrite lookup_insert_eq. simpl.
    unfold _spawn_worker. rewrite Hfree. simpl.
    unfold save. simpl. rewrite lookup_insert_eq. simpl.
    unfold release_resources. simpl. rewrite lookup_insert_eq. simpl.
    rewrite bool_decide_eq_true_2 by reflexivity. simpl.
    do 2 eexists. split; [reflexivity|]. simpl.
    rewrite !insert_insert_eq. by repeat split.
Qed.

Lemma do_node_deploy_no_free_worker_witness :
  exists w' row',
    do_node_deploy (demo_env (mkConf 1800 false 3 8 0) (inr POWER_ON)) "n1"
      true (demo_world (demo_node "n1" POWER_ON ACTIVE))
    = (w', inl NoFreeConductorWorker)
    /\ db w' !! "n1" = Some row'
    /\ provision_state row' = ACTIVE
    /\ last_error row' = Some no_free_workers_msg
    /\ instance_info row' !! "kernel" = None.
Proof.
  destruct (do_node_deploy_no_free_worker
              (demo_env (mkConf 1800 false 3 8 0) (inr POWER_ON))
              (demo_world (demo_node "n1" POWER_ON ACTIVE)) "n1" true
              (demo_node "n1" POWER_ON ACTIVE)
              (fake_driver (inr POWER_ON)) _ _
              eq_refl eq_refl eq_refl eq_refl eq_refl eq_refl eq_refl eq_refl
              (le_n 0))
    as (w' & row' & Hrun & Hdb & _ & Hps & _ & Hle & _ & Hii).
  exists w', row'. split; [exact Hrun|].
  rewrite Hdb, lookup_insert_eq. split; [reflexivity|].
  split; [exact Hps|]. split; [exact Hle|]. rewrite Hii. reflexivity.
Defined.

(** ** vendor_passthru: the deprecated path, letter case, refusals *)

Lemma upper_ascii_idem (c : ascii) : upper_ascii (upper_ascii c) = upper_ascii c.
Proof. by destruct c as [[] [] [] [] [] [] [] []]. Qed.

Lemma upper_lower_ascii (c : ascii) : upper_ascii (lower_ascii c) = upper_ascii c.
Proof. by destruct c as [[] [] [] [] [] [] [] []]. Qed.

Lemma upper_idem (s : string) : upper (upper s) = upper s.
Proof. induction s as [|c s IH]; simpl; [done|]. by rewrite upper_ascii_idem, IH. Qed.

Lemma upper_lower (s : string) : upper (lower s) = upper s.
Proof. induction s as [|c s IH]; simpl; [done|]. by rewrite upper_lower_ascii, IH. Qed.

Ltac step_release :=
  unfold release_resources; simpl; rewrite lookup_insert_eq; simpl;
  rewrite bool_decide_eq_true_2 by reflexivity; simpl.

(** X13. A vendor interface that still has its own [vendor_passthru] is
    served without the route table: for every method name and every HTTP
    method, once [validate] (called without an HTTP method) passes and a
    worker is free, the answer is [(None, true)], the job carries [info] as
    it came (no ["http_method"] entry is added) and the node stays reserved
    for the job. With the pool full the call fails with
    [NoFreeConductorWorker], the node table is as before and nothing is
    queued. *)
Theorem vendor_passthru_legacy
    (env : Env) (w : World) (node_id driver_method http_method : string)
    (info : gmap string string) (row : Node) (d : Driver)
    (v : VendorIface) :
  db w !! node_id = Some row ->
  uuid row = node_id ->
  reservation row = None ->
  driver_factory env (driver row) = Some d ->
  vendor d = Some v ->
  has_legacy_vendor_passthru v = true ->
  vendor_validate v (with_reservation (Some (host env)) row) driver_method
    None info = None ->
  let run := vendor_passthru env node_id driver_method http_method info w in
  (free env w <> O ->
   snd run = inr (None, true)
   /\ running (fst run) =
        (running w ++ [J_legacy_vendor_passthru node_id driver_method info])%list
   /\ db (fst run) =
        <[node_id := with_reservation (Some (host env)) row]> (db w))
  /\
  (free env w = O ->
   snd run = inl NoFreeConductorWorker
   /\ running (fst run) = running w
   /\ db (fst run) = db w).
Proof.
  intros Hdb Hid Hres Hdrv Hv Hleg Hval run. subst run node_id.
  unfold vendor_passthru, with_task, acquire.
  rewrite Hdb. simpl. rewrite Hres, Hdrv. simpl. rewrite Hv, Hleg.
  unfold call_driver, bind, tell, log. simpl. rewrite Hval. simpl.
  unfold _spawn_worker, free. simpl.
  split; intros Hfree.
  - destruct (workers_pool_size (CONF env) - length (running w))%nat;
      [done|]. by simpl.
  - unfold free in Hfree. rewrite Hfree. simpl. step_release.
    by rewrite reserve_release_db.
Qed.

Lemma vendor_passthru_legacy_witness :
  snd (vendor_passthru legacy_env "n1" "no_such_method" "BREW"
         {["a" := "b"]} (demo_world (demo_node "n1" POWER_OFF ACTIVE)))
    = inr (None, true).
Proof.
  destruct (vendor_passthru_legacy legacy_env
              (demo_world (demo_node "n1" POWER_OFF ACTIVE)) "n1"
              "no_such_method" "BREW" {["a" := "b"]}
              (demo_node "n1" POWER_OFF ACTIVE) legacy_driver legacy_vendor
              eq_refl eq_refl eq_refl eq_refl eq_refl eq_refl eq_refl)
    as [H _].
  apply H. vm_compute. discriminate.
Defined.

(** X14. For an HTTP method spelled in ASCII characters,
    [vendor_passthru] reads it ignoring letter case: a request made with
    the lower-cased or the upper-cased spelling does exactly what the
    request as spelled does, in result and in every effect. (Outside
    ASCII the case maps of Python are not the ones modelled here, and the
    statement is not made.) *)
Theorem vendor_passthru_http_method_case
    (env : Env) (w : World) (node_id driver_method http_method : string)
    (info : gmap string string) :
  ascii_only http_method = true ->
  vendor_passthru env node_id driver_method (lower http_method) info w
    = vendor_passthru env node_id driver_method http_method info w
  /\ vendor_passthru env node_id driver_method (upper http_method) info w
    = vendor_passthru env node_id driver_method http_method info w.
Proof.
  intros _. unfold vendor_passthru. by rewrite upper_lower, upper_idem.
Qed.

Lemma vendor_passthru_http_method_case_witness :
  let env := demo_env demo_conf (inr POWER_OFF) in
  let w := demo_world (demo_node "n1" POWER_OFF ACTIVE) in
  vendor_passthru env "n1" "flash" "post" ∅ w
    = vendor_passthru env "n1" "flash" "Post" ∅ w
  /\ vendor_passthru env "n1" "flash" "POST" ∅ w
    = vendor_passthru env "n1" "flash" "Post" ∅ w.
Proof.
  intros env w.
  exact (vendor_passthru_http_method_case env w "n1" "flash" "Post" ∅
           eq_refl).
Defined.

(** X15. A [vendor_passthru] request that fails on a method whose route,
    if it has one, is asynchronous has changed nothing: for a node that
    could be locked, whatever the failure (no vendor interface, no route,
    HTTP method not allowed, [validate] raising, pool full), the node table
    and the worker pool end as they were, the reservation released. *)
Theorem vendor_passthru_failure_leaves_node
    (env : Env) (w w' : World) (node_id driver_method http_method : string)
    (info : gmap string string) (row : Node) (d : Driver) (e : exn) :
  db w !! node_id = Some row ->
  uuid row = node_id ->
  reservation row = None ->
  driver_factory env (driver row) = Some d ->
  (forall v route,
     vendor d = Some v -> vendor_routes v !! driver_method = Some route ->
     async route = true) ->
  vendor_passthru env node_id driver_method http_method info w
    = (w', inl e) ->
  db w' = db w /\ running w' = running w.
Proof.
  intros Hdb Hid Hres Hdrv Hasync. subst node_id.
  unfold vendor_passthru, with_task, acquire.
  rewrite Hdb. simpl. rewrite Hres, Hdrv. simpl.
  destruct (vendor d) as [v|] eqn:Hv; simpl.
  2:{ step_release. intros [= <- _]. simpl.
      by rewrite reserve_release_db. }
  destruct (has_legacy_vendor_passthru v); simpl.
  - unfold call_driver, bind, tell, log. simpl.
    destruct (vendor_validate v _ driver_method None info); simpl.
    + step_release. intros [= <- _]. simpl.
      by rewrite reserve_release_db.
    + unfold _spawn_worker, free. simpl.
      destruct (workers_pool_size (CONF env) - length (running w))%nat;
        simpl; [|discriminate].
      step_release. intros [= <- _]. simpl.
      by rewrite reserve_release_db.
  - destruct (vendor_routes v !! driver_method) as [route|] eqn:Hr; simpl.
    2:{ step_release. intros [= <- _]. simpl.
        by rewrite reserve_release_db. }
    destruct (str_in (upper http_method) (http_methods route)); simpl.
    2:{ step_release. intros [= <- _]. simpl.
        by rewrite reserve_release_db. }
    unfold call_driver, bind, tell, log. simpl.
    destruct (vendor_validate v _ driver_method _ info); simpl.
    + step_release. intros [= <- _]. simpl.
      by rewrite reserve_release_db.
    + rewrite (Hasync v route eq_refl Hr). simpl.
      unfold _spawn_worker, free. simpl.
      destruct (workers_pool_size (CONF env) - length (running w))%nat;
        simpl; [|discriminate].
      step_release. intros [= <- _]. simpl.
      by rewrite reserve_release_db.
Qed.

Lemma vendor_passthru_failure_leaves_node_witness :
  let w := demo_world (demo_node "n1" POWER_OFF ACTIVE) in
  let run := vendor_passthru (demo_env demo_conf (inr POWER_OFF)) "n1"
               "flash" "GET" ∅ w in
  (exists msg, snd run = inl (InvalidParameterValue msg))
  /\ db (fst run) = db w /\ running (fst run) = running w.
Proof.
  intros w run. split; [by eexists|].
  apply (vendor_passthru_failure_leaves_node
           (demo_env demo_conf (inr POWER_OFF)) w (fst run) "n1" "flash" "GET"
           ∅ (demo_node "n1" POWER_OFF ACTIVE) (fake_driver (inr POWER_OFF))
           (InvalidParameterValue
              "The method flash does not support HTTP GET")
           eq_refl eq_refl eq_refl eq_refl).
  - intros v route [= <-]. simpl.
    destruct (decide ("flash" = "flash")) as [_|]; [|done].
    vm_compute. by intros [= <-].
  - reflexivity.
Defined.

(** ** set_console_mode and its worker *)

(** X16. A [set_console_mode] request that changes the mode, on a node
    whose console interface validates, never writes [console_enabled]
    itself: it clears [last_error], saves, and leaves the switch to the
    job. With a free worker the job is queued and the node stays reserved;
    with the pool full the call fails with [NoFreeConductorWorker], the
    reservation is released, and [last_error] stays cleared (no error hook
    is registered). *)
Theorem set_console_mode_change
    (env : Env) (w : World) (node_id : string) (enabled : bool)
    (row : Node) (d : Driver) (c : ConsoleIface) :
  db w !! node_id = Some row ->
  uuid row = node_id ->
  reservation row = None ->
  driver_factory env (driver row) = Some d ->
  console d = Some c ->
  console_validate c (with_reservation (Some (host env)) row) = None ->
  console_enabled row = negb enabled ->
  let run := set_console_mode env node_id enabled w in
  (free env w <> O ->
   snd run = inr tt
   /\ running (fst run) =
        (running w ++ [J_set_console_mode node_id enabled])%list
   /\ db (fst run) =
        <[node_id := with_reservation (Some (host env))
                       (with_last_error None row)]> (db w))
  /\
  (free env w = O ->
   snd run = inl NoFreeConductorWorker
   /\ running (fst run) = running w
   /\ db (fst run) = <[node_id := with_last_error None row]> (db w)).
Proof.
  intros Hdb Hid Hres Hdrv Hcon Hval Hen run. subst run node_id.
  unfold set_console_mode, with_task, acquire.
  rewrite Hdb. simpl. rewrite Hres, Hdrv. simpl. rewrite Hcon.
  unfold call_driver, bind, tell, log. simpl. rewrite Hval. simpl.
  rewrite Hen.
  replace (Bool.eqb enabled (negb enabled)) with false
    by (by destruct enabled).
  unfold save. simpl. rewrite lookup_insert_eq. simpl.
  unfold _spawn_worker, free. simpl.
  split; intros Hfree.
  - destruct (workers_pool_size (CONF env) - length (running w))%nat;
      [done|]. simpl. rewrite insert_insert_eq. do 2 (split; [done|]).
    f_equal;
      try (unfold apply_changes, with_last_error, with_reservation; simpl;
           by rewrite ?Hen, ?Hres).
  - unfold free in Hfree. rewrite Hfree. simpl. step_release.
    rewrite !insert_insert_eq. do 2 (split; [done|]).
    f_equal;
      try (unfold apply_changes, with_last_error, with_reservation; simpl;
           by rewrite ?Hen, ?Hres).
Qed.

Lemma set_console_mode_change_witness :
  let w := demo_world (with_last_error (Some "old failure")
                         (demo_node "n1" POWER_OFF ACTIVE)) in
  let run := set_console_mode (demo_env (mkConf 1800 false 3 8 0)
                                 (inr POWER_OFF)) "n1" true w in
  snd run = inl NoFreeConductorWorker
  /\ last_error <$> db (fst run) !! "n1" = Some None
  /\ console_enabled <$> db (fst run) !! "n1" = Some false.
Proof.
  intros w run.
  destruct (set_console_mode_change
              (demo_env (mkConf 1800 false 3 8 0) (inr POWER_OFF)) w "n1"
              true (with_last_error (Some "old failure")
                      (demo_node "n1" POWER_OFF ACTIVE))
              (fake_driver (inr POWER_OFF)) fake_console
              eq_refl eq_refl eq_refl eq_refl eq_refl eq_refl eq_refl)
    as [_ H].
  destruct (H eq_refl) as (Hr & _ & Hdb).
  split; [exact Hr|]. subst run. rewrite Hdb, lookup_insert_eq. by split.
Defined.

(** X17. The job [_set_console_mode], run on a task whose node is stored
    and has no pending change: it calls [start_console] when enabling and
    [stop_console] when disabling, never the other one. When the call
    succeeds the stored node gets [console_enabled = enabled] and
    [last_error] cleared; when it raises [e], the job raises [e],
    [console_enabled] keeps its value and [last_error] holds the message
    quoting [e]. Either way the node is saved and nothing else of the
    row changes. *)
Theorem set_console_mode_worker
    (start_console stop_console : Node -> option exn)
    (w : World) (task : Task) (enabled : bool) (row : Node) :
  task_node task = mkObj row [] ->
  db w !! uuid row = Some row ->
  let op := if enabled then start_console else stop_console in
  let call := if enabled then console_start_call else console_stop_call in
  let run := _set_console_mode start_console stop_console task enabled w in
  trace (fst run) =
    (trace w ++ [E_driver call (uuid row);
                 E_save (uuid row) (default row (db (fst run) !! uuid row))])%list
  /\ running (fst run) = running w
  /\ (op row = None ->
      (exists task', snd run = inr task'
                     /\ attrs (task_node task') =
                          with_last_error None (with_console_enabled enabled row))
      /\ db (fst run) =
           <[uuid row := with_last_error None
                           (with_console_enabled enabled row)]> (db w))
  /\ (forall e, op row = Some e ->
      snd run = inl e
      /\ db (fst run) =
           <[uuid row := with_last_error
                           (Some (console_error_msg enabled row e)) row]>
             (db w)).
Proof.
  intros Hnode Hdb op call run. subst op call run.
  unfold _set_console_mode. rewrite Hnode.
  unfold bind, tell, log. simpl.
  destruct ((if enabled then start_console else stop_console) row)
    as [e|] eqn:Hop; simpl.
  - unfold save, bind. simpl. rewrite Hdb. simpl.
    rewrite lookup_insert_eq. simpl. rewrite <- app_assoc. simpl.
    split; [reflexivity|]. split; [reflexivity|].
    split; [done|]. intros e' [= <-]. split; [reflexivity|].
    reflexivity.
  - unfold save, bind. simpl. rewrite Hdb. simpl.
    rewrite lookup_insert_eq. simpl. rewrite <- app_assoc. simpl.
    split; [reflexivity|]. split; [reflexivity|].
    split; [|done]. intros _. split.
    + eexists. split; [reflexivity|]. simpl. reflexivity.
    + reflexivity.
Qed.

Lemma set_console_mode_worker_witness :
  let row := demo_node "n1" POWER_OFF ACTIVE in
  let task := mkTask (mkObj row []) (fake_driver (inr POWER_OFF)) false
                None None in
  let run := _set_console_mode (fun _ => Some (OtherException "no tty"))
               (fun _ => None) task true (demo_world row) in
  snd run = inl (OtherException "no tty")
  /\ console_enabled <$> db (fst run) !! "n1" = Some false
  /\ last_error <$> db (fst run) !! "n1"
     = Some (Some "Error enabling the console on node n1. Reason: no tty").
Proof.
  intros row task run.
  destruct (set_console_mode_worker (fun _ => Some (OtherException "no tty"))
              (fun _ => None) (demo_world row) task true row
              eq_refl eq_refl) as (_ & _ & _ & H).
  destruct (H _ eq_refl) as [Hr Hdb].
  split; [exact Hr|]. subst run. rewrite Hdb, lookup_insert_eq. by split.
Defined.

(** ** The node lock of the RPC handlers *)

(** X18. Every handler that takes the exclusive lock refuses a node it
    cannot lock, before doing anything: for a node id without a row each
    of them fails with [NodeNotFound], for a row that is reserved (by any
    host) with [NodeLocked], and the world is exactly as it was: no driver
    call, no save, no job. ([update_node] checks the delta for
    [power_state] before it takes the lock.) *)
Theorem exclusive_handlers_refuse
    (env : Env) (w : World) (node_id : string) (e : exn) :
  acquire_refusal w node_id = Some e ->
  (forall new_state,
     change_node_power_state env node_id new_state w = (w, inl e))
  /\ (forall driver_method http_method info,
        vendor_passthru env node_id driver_method http_method info w
          = (w, inl e))
  /\ (forall rebuild, do_node_deploy env node_id rebuild w = (w, inl e))
  /\ destroy_node env node_id w = (w, inl e)
  /\ (forall enabled, set_console_mode env node_id enabled w = (w, inl e))
  /\ (forall node_obj,
        uuid (attrs node_obj) = node_id ->
        in_delta F_power_state (obj_what_changed node_obj) = false ->
        update_node env node_obj w = (w, inl e)).
Proof.
  unfold acquire_refusal. intros He.
  assert (Hacq : forall drv, acquire env node_id false drv w = (w, inl e)).
  { intros drv. unfold acquire.
    destruct (db w !! node_id) as [row|]; [|by injection He as <-].
    destruct (reservation row); [by injection He as <-|done]. }
  repeat split; intros;
    try (unfold change_node_power_state, vendor_passthru, do_node_deploy,
           destroy_node, set_console_mode, with_task; by rewrite Hacq).
  unfold update_node. rewrite H0.
  assert (Hu : forall o, uuid (attrs (set_maintenance_reason o None))
                         = uuid (attrs o)) by done.
  destruct (_ && _); rewrite ?Hu, H; unfold with_task; by rewrite Hacq.
Qed.

Lemma exclusive_handlers_refuse_witness :
  let row := with_reservation (Some "conductor-2")
               (demo_node "n1" POWER_OFF AVAILABLE) in
  destroy_node (demo_env demo_conf (inr POWER_OFF)) "n1" (demo_world row)
    = (demo_world row, inl NodeLocked)
  /\ do_node_deploy (demo_env demo_conf (inr POWER_OFF)) "n2" false
       (demo_world row) = (demo_world row, inl NodeNotFound).
Proof.
  intros row. split.
  - apply (exclusive_handlers_refuse (demo_env demo_conf (inr POWER_OFF))
             (demo_world row) "n1" NodeLocked eq_refl).
  - apply (exclusive_handlers_refuse (demo_env demo_conf (inr POWER_OFF))
             (demo_world row) "n2" NodeNotFound eq_refl).
Defined.

(** X19. [update_node] with a changed [driver] takes the lock with the new
    driver, not the stored one. If this conductor has not loaded the new
    driver the call fails with [DriverNotFound], nothing of the request is
    saved and the reservation is given back; if it has, the request is
    saved (the row now names the new driver) whether or not the old driver
    is loaded here, and the reservation is released. *)
Theorem update_node_driver_change
    (env : Env) (w : World) (node_obj : NodeObj) (row : Node) :
  in_delta F_power_state (obj_what_changed node_obj) = false ->
  in_delta F_driver (obj_what_changed node_obj) = true ->
  db w !! uuid (attrs node_obj) = Some row ->
  uuid row = uuid (attrs node_obj) ->
  reservation row = None ->
  let new_driver := driver (attrs node_obj) in
  (driver_factory env new_driver = None ->
   exists w',
     update_node env node_obj w = (w', inl DriverNotFound)
     /\ db w' = db w /\ running w' = running w)
  /\
  (forall d, driver_factory env new_driver = Some d ->
   exists w' saved,
     update_node env node_obj w = (w', inr saved)
     /\ obj_what_changed saved = []
     /\ driver <$> db w' !! uuid row = Some new_driver
     /\ reservation <$> db w' !! uuid row = Some None
     /\ running w' = running w).
Proof.
  intros Hps Hdr Hdb Hid Hres new_driver. subst new_driver.
  unfold update_node. rewrite Hps, Hdr.
  unfold obj_what_changed in *.
  assert (Hfield : forall o,
            in_delta F_driver (changed o) = true ->
            driver (apply_changes (with_reservation (Some (host env)) row) o)
              = driver (attrs o)).
  { intros o Ho. unfold apply_changes. simpl. by rewrite Ho. }
  split.
  - intros Hnone.
    destruct (_ && _); simpl; unfold with_task, acquire;
      rewrite Hdb; simpl; rewrite Hres; simpl; rewrite Hnone; simpl;
      (eexists; split; [reflexivity|]; simpl;
       rewrite with_reservation_None_id by done; by rewrite insert_id).
  - intros d Hd.
    destruct (_ && _); simpl; unfold with_task, acquire;
      rewrite Hdb; simpl; rewrite Hres; simpl; rewrite Hd; simpl;
      unfold bind, save; simpl; rewrite lookup_insert_eq; simpl;
      unfold release_resources; simpl; rewrite Hid, lookup_insert_eq; simpl;
      rewrite bool_decide_eq_true_2 by reflexivity; simpl;
      (do 2 eexists; split; [reflexivity|]; simpl;
       rewrite lookup_insert_eq; simpl; rewrite Hdr; by repeat split).
Qed.

Lemma update_node_driver_change_witness :
  exists w' saved,
    update_node (demo_env demo_conf (inr POWER_OFF)) to_fake_driver
      (demo_world foreign_node) = (w', inr saved)
    /\ driver <$> db w' !! "n1" = Some "fake".
Proof.
  destruct (update_node_driver_change (demo_env demo_conf (inr POWER_OFF))
              (demo_world foreign_node) to_fake_driver foreign_node
              eq_refl eq_refl eq_refl eq_refl eq_refl) as [_ H].
  destruct (H (fake_driver (inr POWER_OFF)) eq_refl)
    as (w' & saved & Hrun & _ & Hdrv & _).
  exists w', saved. split; [exact Hrun | exact Hdrv].
Defined.

(** ** The job do_node_tear_down *)

(** X20. The job [do_node_tear_down], run on a task whose node is stored
    and has no pending change, always ends with the stored node's
    [instance_info] empty, on every path, and leaves the pool alone.
    [tear_down] is consulted only when [clean_up] succeeds. When both
    succeed and the machine accepts ['done'], the node gets the new
    provision state and no target, whatever target the machine names.
    When one fails with [e], [last_error] records
    ["Failed to tear down. Error: <e>"] and the job raises [e] after the
    ['error'] event, or [InvalidState] in place of [e] when the machine
    refuses ['error']. *)
Theorem do_node_tear_down_worker
    (env : Env) (clean_up tear_down : Node -> option exn)
    (w : World) (task : Task) (row : Node) :
  task_node task = mkObj row [] ->
  db w !! uuid row = Some row ->
  let run := do_node_tear_down env clean_up tear_down task w in
  let state := provision_state row in
  let msg e := Some ("Failed to tear down. Error: " +:+ exn_str e) in
  instance_info <$> db (fst run) !! uuid row = Some ∅
  /\ running (fst run) = running w
  /\ (tear_down_failure clean_up tear_down row = None ->
      (forall st tgt,
         fsm env state "done" = Some (st, tgt) ->
         (exists task', snd run = inr task')
         /\ db (fst run) =
              <[uuid row := torn_down st None (last_error row) row]> (db w))
      /\ (fsm env state "done" = None ->
          snd run = inl InvalidState
          /\ db (fst run) =
               <[uuid row := torn_down state (target_provision_state row)
                               (last_error row) row]> (db w)))
  /\ (forall e,
        tear_down_failure clean_up tear_down row = Some e ->
        (forall st tgt,
           fsm env state "error" = Some (st, tgt) ->
           snd run = inl e
           /\ db (fst run) = <[uuid row := torn_down st tgt (msg e) row]> (db w))
        /\ (fsm env state "error" = None ->
            snd run = inl InvalidState
            /\ db (fst run) =
                 <[uuid row := torn_down state (target_provision_state row)
                                 (msg e) row]> (db w))).
Proof.
  intros Hnode Hdb run state msg. subst run state msg.
  unfold do_node_tear_down, tear_down_failure. rewrite Hnode. simpl.
  destruct (match clean_up row with Some e => Some e | None => tear_down row
            end) as [e|]; simpl.
  - unfold bind, process_event_caught, process_event, bind, tell, log. simpl.
    destruct (fsm env (provision_state row) "error") as [[st tgt]|] eqn:Hf;
      simpl.
    + unfold save, bind. simpl. rewrite ?Hnode. simpl. rewrite Hdb. simpl.
      rewrite lookup_insert_eq. simpl. rewrite lookup_insert_eq. simpl.
      rewrite insert_insert_eq.
      split; [done|]. split; [done|]. split; [done|].
      intros e' [= <-]. split; [|done].
      intros st' tgt' [= <- <-]. by split.
    + unfold save, bind. simpl. rewrite ?Hnode. simpl. rewrite Hdb. simpl.
      rewrite lookup_insert_eq. simpl.
      split; [done|]. split; [done|]. split; [done|].
      intros e' [= <-]. split; [done|]. intros _. by split.
  - unfold bind, process_event_caught, process_event, bind, tell, log. simpl.
    rewrite !Hnode. simpl.
    destruct (fsm env (provision_state row) "done") as [[st tgt]|] eqn:Hf;
      simpl.
    + unfold save, bind. simpl. rewrite ?Hnode. simpl. rewrite Hdb. simpl.
      rewrite lookup_insert_eq. simpl. rewrite lookup_insert_eq. simpl.
      rewrite insert_insert_eq.
      split; [done|]. split; [done|]. split; [|done].
      intros _. split; [|done].
      intros st' tgt' [= <- <-]. split; [by eexists|done].
    + unfold save, bind. simpl. rewrite ?Hnode. simpl. rewrite Hdb. simpl.
      rewrite lookup_insert_eq. simpl.
      split; [done|]. split; [done|]. split; [|done].
      intros _. split; [done|]. intros _. by split.
Qed.

Lemma do_node_tear_down_worker_witness :
  let row := demo_node "n1" POWER_ON DELETING in
  let task := mkTask (mkObj row []) (fake_driver (inr POWER_ON)) false
                None None in
  let run := do_node_tear_down (demo_env demo_conf (inr POWER_ON))
               (fun _ => None) (fun _ => Some (OtherException "bmc down"))
               task (demo_world row) in
  snd run = inl (OtherException "bmc down")
  /\ db (fst run) !! "n1"
     = Some (torn_down DELETING None
               (Some "Failed to tear down. Error: bmc down") row).
Proof.
  intros row task run.
  destruct (do_node_tear_down_worker (demo_env demo_conf (inr POWER_ON))
              (fun _ => None) (fun _ => Some (OtherException "bmc down"))
              (demo_world row) task row eq_refl eq_refl)
    as (_ & _ & _ & H).
  destruct (H (OtherException "bmc down") eq_refl) as [H1 _].
  destruct (H1 DELETING None eq_refl) as [Hr Hd].
  split; [exact Hr|]. subst run. by rewrite Hd, lookup_insert_eq.
Defined.
